(** * A shallow embedding of the clock / event logger of [src/main.cpp]

    The program is an mbed application: four push buttons raise interrupts,
    a polling loop runs the application state machine, a two-slot log lives
    in an I2C EEPROM and the time editor works on the text
    [YYYY/MM/DD HH:MM:SS].

    Conventions of the embedding:
    - a C [int] is a [Z] and its arithmetic that of the integers; this is
      the C arithmetic as long as no sum leaves the range of [int], which
      the properties of a sum of arbitrary operands assume ([int_range]);
    - a [char] is an [ascii]; a C string is the [list ascii] of the
      characters before its terminating NUL, an array [char x[20]] read or
      written as raw bytes is a [list ascii] of length 20;
    - the global variables are the fields of the record [Globals]; every
      function that touches them takes and returns the record;
    - a run interleaves whole handlers and whole iterations of the polling
      loop; an interrupt that arrives in the middle of an iteration is not
      modelled, and properties over runs are read at that granularity;
    - the C library ([sscanf], [sprintf], [strftime]) and the mbed classes
      ([Timeout], [I2C]) are modelled by what their documentation says of
      the calls the program makes. *)

From Stdlib Require Import ZArith List Bool Ascii String Lia.
Import ListNotations.
Local Open Scope Z_scope.

(** ** Characters and C strings *)

Definition cstring := list ascii.

Definition str (s : string) : cstring := list_ascii_of_string s.

Definition NUL : ascii := Ascii.zero.

Definition code (c : ascii) : Z := Z.of_N (N_of_ascii c).

Definition char_of (z : Z) : ascii := ascii_of_N (Z.to_N z).

(* The characters of a buffer up to, and without, the first NUL. *)
Fixpoint c_str (buf : list ascii) : cstring :=
  match buf with
  | [] => []
  | c :: r => if Ascii.eqb c NUL then [] else c :: c_str r
  end.

(* [char x[n] = {0}] followed by a copy of the string [s] and its NUL. *)
Definition to_buffer (n : nat) (s : cstring) : list ascii :=
  firstn n (s ++ repeat NUL n).

(** ** Constants of the program *)

Definition EEPROM_ADDR : Z := 160.
Definition TIME_STR_SIZE : Z := 20.
Definition LOG1_ADDR : Z := 0.
Definition LOG2_ADDR : Z := 32.
Definition DEBOUNCE_TIME_MS : Z := 200.

Inductive AppState : Type := IDLE | LOG_TIME | DISPLAY_LOG | SET_TIME.

Definition AppState_eqb (a b : AppState) : bool :=
  match a, b with
  | IDLE, IDLE | LOG_TIME, LOG_TIME
  | DISPLAY_LOG, DISPLAY_LOG | SET_TIME, SET_TIME => true
  | _, _ => false
  end.

(** ** struct tm *)

Record tm : Type := mk_tm {
  tm_sec : Z;
  tm_min : Z;
  tm_hour : Z;
  tm_mday : Z;
  tm_mon : Z;
  tm_year : Z;
  tm_wday : Z;
  tm_yday : Z;
  tm_isdst : Z
}.

Definition set_tm_sec (t : tm) (v : Z) : tm :=
  mk_tm v (tm_min t) (tm_hour t) (tm_mday t) (tm_mon t) (tm_year t)
        (tm_wday t) (tm_yday t) (tm_isdst t).
Definition set_tm_min (t : tm) (v : Z) : tm :=
  mk_tm (tm_sec t) v (tm_hour t) (tm_mday t) (tm_mon t) (tm_year t)
        (tm_wday t) (tm_yday t) (tm_isdst t).
Definition set_tm_hour (t : tm) (v : Z) : tm :=
  mk_tm (tm_sec t) (tm_min t) v (tm_mday t) (tm_mon t) (tm_year t)
        (tm_wday t) (tm_yday t) (tm_isdst t).
Definition set_tm_mday (t : tm) (v : Z) : tm :=
  mk_tm (tm_sec t) (tm_min t) (tm_hour t) v (tm_mon t) (tm_year t)
        (tm_wday t) (tm_yday t) (tm_isdst t).
Definition set_tm_mon (t : tm) (v : Z) : tm :=
  mk_tm (tm_sec t) (tm_min t) (tm_hour t) (tm_mday t) v (tm_year t)
        (tm_wday t) (tm_yday t) (tm_isdst t).
Definition set_tm_year (t : tm) (v : Z) : tm :=
  mk_tm (tm_sec t) (tm_min t) (tm_hour t) (tm_mday t) (tm_mon t) v
        (tm_wday t) (tm_yday t) (tm_isdst t).

(** ** The range of [int] *)

(* The target has 32-bit [int]s. *)
Definition INT_MIN : Z := -2147483648.
Definition INT_MAX : Z := 2147483647.

Definition int_range (z : Z) : Prop := INT_MIN <= z <= INT_MAX.

(** ** The field editor: [getMaxDay], [my_strcmp], [getCurrentFieldName],
    [adjustField] *)

Definition getMaxDay (month year : Z) : Z :=
  if (month =? 1) || (month =? 3) || (month =? 5) || (month =? 7)
     || (month =? 8) || (month =? 10) || (month =? 12) then 31
  else if (month =? 4) || (month =? 6) || (month =? 9) || (month =? 11) then 30
  else if month =? 2 then 28
  else 31.

Fixpoint my_strcmp (s1 s2 : cstring) : Z :=
  match s1, s2 with
  | c1 :: r1, c2 :: r2 =>
      if Ascii.eqb c1 c2 then my_strcmp r1 r2 else code c1 - code c2
  | c1 :: _, [] => code c1 - 0
  | [], c2 :: _ => 0 - code c2
  | [], [] => 0
  end.

Definition getCurrentFieldName (pos : Z) : cstring :=
  if (0 <=? pos) && (pos <=? 3) then str "Year"
  else if (5 <=? pos) && (pos <=? 6) then str "Month"
  else if (8 <=? pos) && (pos <=? 9) then str "Day"
  else if (11 <=? pos) && (pos <=? 12) then str "Hour"
  else if (14 <=? pos) && (pos <=? 15) then str "Minute"
  else if (17 <=? pos) && (pos <=? 18) then str "Second"
  else str "Unknown".

(* The sums are sums of integers: this is the C function wherever the sum
   it computes is in the range of [int]. *)
Definition adjustField (timeinfo : tm) (currentEditPos delta : Z) : tm :=
  let field := getCurrentFieldName currentEditPos in
  if my_strcmp field (str "Year") =? 0 then
    set_tm_year timeinfo (tm_year timeinfo + delta)
  else if my_strcmp field (str "Month") =? 0 then
    let mon := tm_mon timeinfo + delta in
    let mon := if mon >? 11 then 0 else if mon <? 0 then 11 else mon in
    let t1 := set_tm_mon timeinfo mon in
    let max_day := getMaxDay (tm_mon t1 + 1) (tm_year t1 + 1900) in
    if tm_mday t1 >? max_day then set_tm_mday t1 max_day else t1
  else if my_strcmp field (str "Day") =? 0 then
    let max_day := getMaxDay (tm_mon timeinfo + 1) (tm_year timeinfo + 1900) in
    let day := tm_mday timeinfo + delta in
    let day := if day >? max_day then 1 else if day <? 1 then max_day else day in
    set_tm_mday timeinfo day
  else if my_strcmp field (str "Hour") =? 0 then
    let h := tm_hour timeinfo + delta in
    set_tm_hour timeinfo (if h >? 23 then 0 else if h <? 0 then 23 else h)
  else if my_strcmp field (str "Minute") =? 0 then
    let m := tm_min timeinfo + delta in
    set_tm_min timeinfo (if m >? 59 then 0 else if m <? 0 then 59 else m)
  else if my_strcmp field (str "Second") =? 0 then
    let s := tm_sec timeinfo + delta in
    set_tm_sec timeinfo (if s >? 59 then 0 else if s <? 0 then 59 else s)
  else timeinfo.

(** ** The cursor: [isEditablePosition] *)

Definition separators : list Z := [4; 7; 10; 13; 16].

Definition isEditablePosition (pos : Z) : bool :=
  if (pos <? 0) || (pos >=? TIME_STR_SIZE - 1) then false
  else negb (existsb (Z.eqb pos) separators).

(** ** The C library: character classes, [sscanf], [sprintf], [strftime] *)

Definition isspace (c : ascii) : bool :=
  (code c =? 32) || ((9 <=? code c) && (code c <=? 13)).

Definition isdigit (c : ascii) : bool := (48 <=? code c) && (code c <=? 57).

Definition digit_val (c : ascii) : Z := code c - 48.

(* A field width of a conversion: [None] when the directive gives none. *)
Definition width_left (w : option nat) : bool :=
  match w with Some O => false | _ => true end.

Definition width_pred (w : option nat) : option nat :=
  match w with Some (S n) => Some n | _ => w end.

Fixpoint skip_space (s : cstring) : cstring :=
  match s with
  | c :: r => if isspace c then skip_space r else s
  | [] => []
  end.

Fixpoint take_digits (w : option nat) (s : cstring) : cstring * cstring :=
  match s with
  | c :: r =>
      if isdigit c && width_left w then
        let (ds, rest) := take_digits (width_pred w) r in (c :: ds, rest)
      else ([], s)
  | [] => ([], [])
  end.

Definition decimal_value (ds : cstring) : Z :=
  fold_left (fun a c => 10 * a + digit_val c) ds 0.

(* The conversion [%d], or [%Nd] with [w = Some N]: white space is skipped,
   then the longest prefix of at most [N] characters that is an optional
   sign followed by digits is taken; no digit is a matching failure. *)
Definition scan_int (w : option nat) (s : cstring) : option (Z * cstring) :=
  let s1 := skip_space s in
  let '(neg, s2, w2) :=
    match s1 with
    | c :: r =>
        if (Ascii.eqb c "-" || Ascii.eqb c "+") && width_left w
        then (Ascii.eqb c "-", r, width_pred w)
        else (false, s1, w)
    | [] => (false, s1, w)
    end in
  let (ds, rest) := take_digits w2 s2 in
  match ds with
  | [] => None
  | _ => Some (if neg then - decimal_value ds else decimal_value ds, rest)
  end.

(* An ordinary character of the format: it must be the next character. *)
Definition scan_char (c : ascii) (s : cstring) : option cstring :=
  match s with
  | c' :: r => if Ascii.eqb c' c then Some r else None
  | [] => None
  end.

Definition bind {A B : Type} (o : option A) (f : A -> option B) : option B :=
  match o with Some a => f a | None => None end.

Notation "' p <- o ;; k" := (bind o (fun p => k))
  (at level 61, p pattern, o at next level, right associativity).

(* [sscanf(s, "%d/%d/%d %d:%d:%d", ...) == 6], with the field widths [wy]
   (year) and [wf] (the other five): the six values, or [None] when fewer
   than six conversions are made. *)
Definition sscanf_timestamp (wy wf : option nat) (s : cstring)
  : option (Z * Z * Z * Z * Z * Z) :=
  '(year, s) <- scan_int wy s ;;
  's <- scan_char "/" s ;;
  '(mon, s) <- scan_int wf s ;;
  's <- scan_char "/" s ;;
  '(day, s) <- scan_int wf s ;;
  '(hour, s) <- scan_int wf (skip_space s) ;;
  's <- scan_char ":" s ;;
  '(min, s) <- scan_int wf s ;;
  's <- scan_char ":" s ;;
  '(sec, _) <- scan_int wf s ;;
  Some (year, mon, day, hour, min, sec).

Fixpoint digits_fuel (fuel : nat) (n : Z) (acc : cstring) : cstring :=
  match fuel with
  | O => acc
  | S f =>
      let acc' := char_of (48 + n mod 10) :: acc in
      if n <? 10 then acc' else digits_fuel f (n / 10) acc'
  end.

(* The decimal digits of a natural number, most significant first. *)
Definition digits (n : Z) : cstring :=
  digits_fuel (S (Z.to_nat (Z.log2 n))) n [].

Definition pad_zero (width : nat) (ds : cstring) : cstring :=
  repeat "0"%char (width - List.length ds) ++ ds.

(* The conversion [%0Nd] of [sprintf]. *)
Definition sprintf_0d (width : nat) (v : Z) : cstring :=
  if v <? 0 then "-"%char :: pad_zero (width - 1) (digits (- v))
  else pad_zero width (digits v).

(* [sprintf(out, "%04d/%02d/%02d %02d:%02d:%02d", ...)]. *)
Definition sprintf_timestamp (year month day hour minute second : Z) : cstring :=
  sprintf_0d 4 year ++ "/"%char :: sprintf_0d 2 month ++ "/"%char ::
  sprintf_0d 2 day ++ " "%char :: sprintf_0d 2 hour ++ ":"%char ::
  sprintf_0d 2 minute ++ ":"%char :: sprintf_0d 2 second.

(* The fields of a [struct tm] in the ranges the C standard calls normal,
   with a year of four digits. *)
Definition tm_normal (t : tm) : bool :=
  (1000 <=? tm_year t + 1900) && (tm_year t + 1900 <=? 9999)
  && (0 <=? tm_mon t) && (tm_mon t <=? 11)
  && (1 <=? tm_mday t) && (tm_mday t <=? 31)
  && (0 <=? tm_hour t) && (tm_hour t <=? 23)
  && (0 <=? tm_min t) && (tm_min t <=? 59)
  && (0 <=? tm_sec t) && (tm_sec t <=? 60).

(* The six fields of a [struct tm] printed with the format of the program's
   [sprintf] calls; the year is [tm_year + 1900] and the month
   [tm_mon + 1], as in [updateDisplay]. *)
Definition format_tm (t : tm) : cstring :=
  sprintf_timestamp (tm_year t + 1900) (tm_mon t + 1) (tm_mday t)
                    (tm_hour t) (tm_min t) (tm_sec t).

(* [strftime(out, TIME_STR_SIZE, "%Y/%m/%d %H:%M:%S", t)]: the string left
   in [out].  For [tm_normal t] these are the 19 characters every C library
   produces; outside that domain the C standard leaves the characters
   unspecified, and results that rely on this function assume
   [tm_normal]. *)
Definition strftime_timestamp (t : tm) : cstring := format_tm t.

(** ** [parseEditBufferToTm] *)

Definition parseEditBufferToTm (buffer : cstring) : option tm :=
  match sscanf_timestamp (Some 4%nat) (Some 2%nat) buffer with
  | Some (year, mon, day, hour, min, sec) =>
      Some (mk_tm sec min hour day (mon - 1) (year - 1900) 0 0 0)
  | None => None
  end.

(** ** The EEPROM behind the I2C bus *)

(* The device: its cells by internal address, and its address pointer. *)
Record I2C : Type := mk_i2c { mem : Z -> ascii; pointer : Z }.

Fixpoint store_bytes (m : Z -> ascii) (addr : Z) (data : list ascii) : Z -> ascii :=
  match data with
  | [] => m
  | c :: r => store_bytes (fun x => if x =? addr then c else m x) (addr + 1) r
  end.

Definition load_bytes (m : Z -> ascii) (addr : Z) (size : nat) : list ascii :=
  map (fun i => m (addr + Z.of_nat i)) (seq 0 size).

(* [i2c.write(address, buf, len, false)]: the device takes the first two
   bytes as the internal address and stores the others from there on. *)
Definition i2c_write (address : Z) (buf : list ascii) (dev : I2C) : I2C :=
  if address =? EEPROM_ADDR then
    match buf with
    | hi :: lo :: data =>
        let a := code hi * 256 + code lo in
        mk_i2c (store_bytes (mem dev) a data) (a + Z.of_nat (List.length data))
    | _ => dev
    end
  else dev.

(* [i2c.read(address, data, size)]: [size] bytes from the address pointer. *)
Definition i2c_read (address : Z) (size : nat) (dev : I2C) : list ascii * I2C :=
  if address =? EEPROM_ADDR then
    (load_bytes (mem dev) (pointer dev) size,
     mk_i2c (mem dev) (pointer dev + Z.of_nat size))
  else (repeat NUL size, dev).

Definition WriteEEPROM (address ep_address : Z) (data : list ascii) (size : nat)
                       (dev : I2C) : I2C :=
  let i2cBuffer :=
    char_of (Z.land (Z.shiftr ep_address 8) 255)
    :: char_of (Z.land ep_address 255)
    :: firstn size data in
  i2c_write address i2cBuffer dev.

Definition ReadEEPROM (address ep_address : Z) (size : nat) (dev : I2C)
  : list ascii * I2C :=
  let i2cBuffer :=
    [char_of (Z.land (Z.shiftr ep_address 8) 255);
     char_of (Z.land ep_address 255)] in
  i2c_read address size (i2c_write address i2cBuffer dev).

(* [buf[i] = c]. *)
Fixpoint poke (i : nat) (c : ascii) (buf : list ascii) {struct buf}
  : list ascii :=
  match buf with
  | [] => []
  | x :: r =>
      match i with
      | O => c :: r
      | S j => x :: poke j c r
      end
  end.

(** ** The global variables *)

Inductive Button : Type :=
  userButton | replayButton | setTimeButton | incrementButton.

(* A debounce flag [..._debouncing] with its [Timeout] object: the time, in
   milliseconds, at which the attached callback is due, if one is. *)
Record Debounce : Type := mk_debounce { debouncing : bool; due : option Z }.

(* What the program does to the outside, newest first in [effects]:
   a call of [storeCurrentTime] when the clock reads [now], the call
   [set_time(mktime(&t))], and the three screens with what they show. *)
Inductive Effect : Type :=
| Ev_storeCurrentTime (now : tm)
| Ev_set_time (t : tm)
| Ev_updateDisplay (now : tm)
| Ev_displayLogs (formattedLog1 formattedLog2 : cstring)
| Ev_updateSetTimeDisplay (formatted : cstring) (pos : Z).

Record Globals : Type := mk_globals {
  state : AppState;
  incrementPressed : bool;
  nextPositionPressed : bool;
  editBuffer : cstring;
  currentEditPos : Z;
  timeSetRequested : bool;
  decrementPressed : bool;
  debounce_user_button : Debounce;
  debounce_replayButton : Debounce;
  debounce_setTimeButton : Debounce;
  debounce_incrementButton : Debounce;
  i2c : I2C;
  effects : list Effect
}.

Definition set_state (g : Globals) (v : AppState) : Globals :=
  mk_globals v (incrementPressed g) (nextPositionPressed g) (editBuffer g)
    (currentEditPos g) (timeSetRequested g) (decrementPressed g)
    (debounce_user_button g) (debounce_replayButton g)
    (debounce_setTimeButton g) (debounce_incrementButton g) (i2c g)
    (effects g).
Definition set_incrementPressed (g : Globals) (v : bool) : Globals :=
  mk_globals (state g) v (nextPositionPressed g) (editBuffer g)
    (currentEditPos g) (timeSetRequested g) (decrementPressed g)
    (debounce_user_button g) (debounce_replayButton g)
    (debounce_setTimeButton g) (debounce_incrementButton g) (i2c g)
    (effects g).
Definition set_nextPositionPressed (g : Globals) (v : bool) : Globals :=
  mk_globals (state g) (incrementPressed g) v (editBuffer g)
    (currentEditPos g) (timeSetRequested g) (decrementPressed g)
    (debounce_user_button g) (debounce_replayButton g)
    (debounce_setTimeButton g) (debounce_incrementButton g) (i2c g)
    (effects g).
Definition set_editBuffer (g : Globals) (v : cstring) : Globals :=
  mk_globals (state g) (incrementPressed g) (nextPositionPressed g) v
    (currentEditPos g) (timeSetRequested g) (decrementPressed g)
    (debounce_user_button g) (debounce_replayButton g)
    (debounce_setTimeButton g) (debounce_incrementButton g) (i2c g)
    (effects g).
Definition set_currentEditPos (g : Globals) (v : Z) : Globals :=
  mk_globals (state g) (incrementPressed g) (nextPositionPressed g)
    (editBuffer g) v (timeSetRequested g) (decrementPressed g)
    (debounce_user_button g) (debounce_replayButton g)
    (debounce_setTimeButton g) (debounce_incrementButton g) (i2c g)
    (effects g).
Definition set_timeSetRequested (g : Globals) (v : bool) : Globals :=
  mk_globals (state g) (incrementPressed g) (nextPositionPressed g)
    (editBuffer g) (currentEditPos g) v (decrementPressed g)
    (debounce_user_button g) (debounce_replayButton g)
    (debounce_setTimeButton g) (debounce_incrementButton g) (i2c g)
    (effects g).
Definition set_decrementPressed (g : Globals) (v : bool) : Globals :=
  mk_globals (state g) (incrementPressed g) (nextPositionPressed g)
    (editBuffer g) (currentEditPos g) (timeSetRequested g) v
    (debounce_user_button g) (debounce_replayButton g)
    (debounce_setTimeButton g) (debounce_incrementButton g) (i2c g)
    (effects g).
Definition set_debounce_user_button (g : Globals) (v : Debounce) : Globals :=
  mk_globals (state g) (incrementPressed g) (nextPositionPressed g)
    (editBuffer g) (currentEditPos g) (timeSetRequested g)
    (decrementPressed g) v (debounce_replayButton g)
    (debounce_setTimeButton g) (debounce_incrementButton g) (i2c g)
    (effects g).
Definition set_debounce_replayButton (g : Globals) (v : Debounce) : Globals :=
  mk_globals (state g) (incrementPressed g) (nextPositionPressed g)
    (editBuffer g) (currentEditPos g) (timeSetRequested g)
    (decrementPressed g) (debounce_user_button g) v
    (debounce_setTimeButton g) (debounce_incrementButton g) (i2c g)
    (effects g).
Definition set_debounce_setTimeButton (g : Globals) (v : Debounce) : Globals :=
  mk_globals (state g) (incrementPressed g) (nextPositionPressed g)
    (editBuffer g) (currentEditPos g) (timeSetRequested g)
    (decrementPressed g) (debounce_user_button g) (debounce_replayButton
    g) v (debounce_incrementButton g) (i2c g) (effects g).
Definition set_debounce_incrementButton (g : Globals) (v : Debounce) : Globals :=
  mk_globals (state g) (incrementPressed g) (nextPositionPressed g)
    (editBuffer g) (currentEditPos g) (timeSetRequested g)
    (decrementPressed g) (debounce_user_button g) (debounce_replayButton
    g) (debounce_setTimeButton g) v (i2c g) (effects g).
Definition set_i2c (g : Globals) (v : I2C) : Globals :=
  mk_globals (state g) (incrementPressed g) (nextPositionPressed g)
    (editBuffer g) (currentEditPos g) (timeSetRequested g)
    (decrementPressed g) (debounce_user_button g) (debounce_replayButton
    g) (debounce_setTimeButton g) (debounce_incrementButton g) v (effects
    g).
Definition set_effects (g : Globals) (v : list Effect) : Globals :=
  mk_globals (state g) (incrementPressed g) (nextPositionPressed g)
    (editBuffer g) (currentEditPos g) (timeSetRequested g)
    (decrementPressed g) (debounce_user_button g) (debounce_replayButton
    g) (debounce_setTimeButton g) (debounce_incrementButton g) (i2c g) v.

Definition emit (e : Effect) (g : Globals) : Globals :=
  set_effects g (e :: effects g).

Definition debounce_of (b : Button) (g : Globals) : Debounce :=
  match b with
  | userButton => debounce_user_button g
  | replayButton => debounce_replayButton g
  | setTimeButton => debounce_setTimeButton g
  | incrementButton => debounce_incrementButton g
  end.

Definition set_debounce_of (b : Button) (g : Globals) (d : Debounce) : Globals :=
  match b with
  | userButton => set_debounce_user_button g d
  | replayButton => set_debounce_replayButton g d
  | setTimeButton => set_debounce_setTimeButton g d
  | incrementButton => set_debounce_incrementButton g d
  end.

(** ** The debounce callbacks and the interrupt handlers

    A handler runs at the time [now_ms] of the falling edge.
    [Timeout::attach(cb, 200ms)] makes [cb] due 200 ms later; when the
    timeout fires it is disarmed and [cb] clears the flag. *)

Definition debounce_callback (b : Button) (g : Globals) : Globals :=
  set_debounce_of b g (mk_debounce false None).

Definition debounce_user_button_callback := debounce_callback userButton.
Definition debounce_replayButton_callback := debounce_callback replayButton.
Definition debounce_setTimeButton_callback := debounce_callback setTimeButton.
Definition debounce_incrementButton_callback := debounce_callback incrementButton.

Definition attach (b : Button) (now_ms : Z) (g : Globals) : Globals :=
  set_debounce_of b g (mk_debounce true (Some (now_ms + DEBOUNCE_TIME_MS))).

Definition onUserButtonPressed (now_ms : Z) (g : Globals) : Globals :=
  if debouncing (debounce_user_button g) then g
  else
    let g := attach userButton now_ms g in
    if AppState_eqb (state g) IDLE then set_state g LOG_TIME else g.

Definition onReplayButtonPressed (now_ms : Z) (g : Globals) : Globals :=
  if debouncing (debounce_replayButton g) then g
  else
    let g := attach replayButton now_ms g in
    if AppState_eqb (state g) SET_TIME then set_decrementPressed g true
    else if AppState_eqb (state g) IDLE then set_state g DISPLAY_LOG
    else if AppState_eqb (state g) DISPLAY_LOG then set_state g IDLE
    else g.

Definition onSetTimeButtonPressed (now_ms : Z) (g : Globals) : Globals :=
  if debouncing (debounce_setTimeButton g) then g
  else
    let g := attach setTimeButton now_ms g in
    if AppState_eqb (state g) IDLE then set_timeSetRequested g true
    else if AppState_eqb (state g) SET_TIME then set_nextPositionPressed g true
    else g.

Definition onIncrementButtonPressed (now_ms : Z) (g : Globals) : Globals :=
  if debouncing (debounce_incrementButton g) then g
  else
    let g := attach incrementButton now_ms g in
    if AppState_eqb (state g) SET_TIME then set_incrementPressed g true
    else g.

(* The handler bound to the falling edge of each button in [main]. *)
Definition fall (b : Button) : Z -> Globals -> Globals :=
  match b with
  | userButton => onUserButtonPressed
  | replayButton => onReplayButtonPressed
  | setTimeButton => onSetTimeButtonPressed
  | incrementButton => onIncrementButtonPressed
  end.

(** ** The log store: [storeCurrentTime], [displayLogs] *)

Definition storeCurrentTime (now : tm) (dev : I2C) : I2C :=
  let '(oldLog, dev) :=
    ReadEEPROM EEPROM_ADDR LOG1_ADDR (Z.to_nat TIME_STR_SIZE) dev in
  let oldLog := poke (Z.to_nat (TIME_STR_SIZE - 1)) NUL oldLog in
  let dev :=
    if negb (Ascii.eqb (nth 0 oldLog NUL) NUL)
    then WriteEEPROM EEPROM_ADDR LOG2_ADDR oldLog (Z.to_nat TIME_STR_SIZE) dev
    else dev in
  let newLog := to_buffer (Z.to_nat TIME_STR_SIZE) (strftime_timestamp now) in
  let newLog := poke (Z.to_nat (TIME_STR_SIZE - 1)) NUL newLog in
  WriteEEPROM EEPROM_ADDR LOG1_ADDR newLog (Z.to_nat TIME_STR_SIZE) dev.

(* The text shown for a record: reformatted when it scans as six numbers,
   copied otherwise. *)
Definition format_log (log : cstring) : cstring :=
  match sscanf_timestamp None None log with
  | Some (year, month, day, hour, minute, second) =>
      sprintf_timestamp year month day hour minute second
  | None => firstn (Z.to_nat (TIME_STR_SIZE - 1)) log
  end.

(* The two records as [displayLogs] reads them: [log1] and [log2]. *)
Definition read_logs (dev : I2C) : (cstring * cstring) * I2C :=
  let '(log1, dev) :=
    ReadEEPROM EEPROM_ADDR LOG1_ADDR (Z.to_nat TIME_STR_SIZE) dev in
  let '(log2, dev) :=
    ReadEEPROM EEPROM_ADDR LOG2_ADDR (Z.to_nat TIME_STR_SIZE) dev in
  let log1 := poke (Z.to_nat (TIME_STR_SIZE - 1)) NUL log1 in
  let log2 := poke (Z.to_nat (TIME_STR_SIZE - 1)) NUL log2 in
  ((c_str log1, c_str log2), dev).

Definition displayLogs (g : Globals) : Globals :=
  let logs := read_logs (i2c g) in
  emit (Ev_displayLogs (format_log (fst (fst logs))) (format_log (snd (fst logs))))
       (set_i2c g (snd logs)).

Definition updateDisplay (now : tm) (g : Globals) : Globals :=
  emit (Ev_updateDisplay now) g.

Definition updateSetTimeDisplay (g : Globals) : Globals :=
  emit (Ev_updateSetTimeDisplay (format_log (editBuffer g)) (currentEditPos g)) g.

(** ** The polling loop of [main] *)

(* [while (pos < TIME_STR_SIZE - 1 && !isEditablePosition(pos)) pos++;]
   the loop ends after at most 19 increments from 0. *)
Fixpoint first_editable (fuel : nat) (pos : Z) : Z :=
  match fuel with
  | O => pos
  | S f =>
      if (pos <? TIME_STR_SIZE - 1) && negb (isEditablePosition pos)
      then first_editable f (pos + 1)
      else pos
  end.

(* [do { pos = (pos + 1) % 19; if (pos == startPos) break; }
    while (!editable(pos));]  [None] when [fuel] iterations do not end it. *)
Fixpoint advance_loop (editable : Z -> bool) (fuel : nat) (startPos pos : Z)
  : option Z :=
  match fuel with
  | O => None
  | S f =>
      let pos := Z.rem (pos + 1) (TIME_STR_SIZE - 1) in
      if pos =? startPos then Some pos
      else if negb (editable pos) then advance_loop editable f startPos pos
      else Some pos
  end.

(* The cursor after the loop; 19 iterations end it from every position of
   the buffer (see [advance_loop_ends]). *)
Definition advanceCursor (pos : Z) : Z :=
  match advance_loop isEditablePosition 19 pos pos with
  | Some p => p
  | None => pos
  end.

Definition enter_set_time (now : tm) (g : Globals) : Globals :=
  if timeSetRequested g && AppState_eqb (state g) IDLE then
    let g := set_timeSetRequested g false in
    let g := set_state g SET_TIME in
    let g := set_editBuffer g (strftime_timestamp now) in
    let g := set_currentEditPos g (first_editable 19 0) in
    updateSetTimeDisplay g
  else g.

Definition log_time (now : tm) (g : Globals) : Globals :=
  if AppState_eqb (state g) LOG_TIME then
    let g := emit (Ev_storeCurrentTime now) g in
    let g := set_i2c g (storeCurrentTime now (i2c g)) in
    set_state g IDLE
  else g.

Definition display_log (g : Globals) : Globals :=
  if AppState_eqb (state g) DISPLAY_LOG then displayLogs g else g.

(* The shared body of the increment and decrement branches. *)
Definition adjust_buffer (delta : Z) (g : Globals) : Globals :=
  let g :=
    set_editBuffer g
      match parseEditBufferToTm (editBuffer g) with
      | Some currentTime =>
          strftime_timestamp (adjustField currentTime (currentEditPos g) delta)
      | None => editBuffer g
      end in
  updateSetTimeDisplay g.

Definition handle_increment (g : Globals) : Globals :=
  if incrementPressed g
  then adjust_buffer 1 (set_incrementPressed g false) else g.

Definition handle_decrement (g : Globals) : Globals :=
  if decrementPressed g
  then adjust_buffer (-1) (set_decrementPressed g false) else g.

Definition handle_nextPosition (g : Globals) : Globals :=
  if nextPositionPressed g then
    let g := set_nextPositionPressed g false in
    let g :=
      if currentEditPos g =? 18 then
        let g :=
          match parseEditBufferToTm (editBuffer g) with
          | Some newTime => emit (Ev_set_time newTime) g
          | None => g
          end in
        set_state g IDLE
      else set_currentEditPos g (advanceCursor (currentEditPos g)) in
    updateSetTimeDisplay g
  else g.

Definition set_time_mode (g : Globals) : Globals :=
  if AppState_eqb (state g) SET_TIME
  then handle_nextPosition (handle_decrement (handle_increment g))
  else g.

Definition idle (now : tm) (g : Globals) : Globals :=
  if AppState_eqb (state g) IDLE then updateDisplay now g else g.

(* One iteration of [while (1)]; [now] is what the clock reads. *)
Definition loop_iteration (now : tm) (g : Globals) : Globals :=
  idle now (set_time_mode (display_log (log_time now (enter_set_time now g)))).

(* The globals when the loop is entered: [dev] is the EEPROM as found. *)
Definition startup (dev : I2C) : Globals :=
  mk_globals IDLE false false [] 0 false false
    (mk_debounce false None) (mk_debounce false None)
    (mk_debounce false None) (mk_debounce false None)
    dev [Ev_set_time (mk_tm 0 0 0 1 0 125 0 0 0)].

(** ** Events and runs *)

Inductive Event : Type :=
| Fall (b : Button) (now_ms : Z)   (* a falling edge of a button *)
| Expire (b : Button)              (* the timeout of a button fires *)
| Poll (now : tm).                 (* one iteration of the loop *)

Definition step (e : Event) (g : Globals) : Globals :=
  match e with
  | Fall b now_ms => fall b now_ms g
  | Expire b => debounce_callback b g
  | Poll now => loop_iteration now g
  end.

Definition run (es : list Event) (g : Globals) : Globals :=
  fold_left (fun g e => step e g) es g.

(* The states of the runs from the start of the loop, a handler or a
   timeout running between two iterations. *)
Inductive reachable : Globals -> Prop :=
| reachable_startup dev : reachable (startup dev)
| reachable_step e g : reachable g -> reachable (step e g).

(** ** Runs in real time

    The [Timeout] objects fire on their own.  In a timed run every event
    carries the time at which it happens, and the timeouts that are due are
    served before it.  [timer_first] says whether a timeout due at the very
    instant of an event is served before that event. *)

Definition Button_eqb (a b : Button) : bool :=
  match a, b with
  | userButton, userButton | replayButton, replayButton
  | setTimeButton, setTimeButton | incrementButton, incrementButton => true
  | _, _ => false
  end.

Definition is_due (timer_first : bool) (now_ms : Z) (d : Debounce) : bool :=
  match due d with
  | Some t => if timer_first then t <=? now_ms else t <? now_ms
  | None => false
  end.

Definition fire (timer_first : bool) (now_ms : Z) (b : Button) (g : Globals)
  : Globals :=
  if is_due timer_first now_ms (debounce_of b g) then debounce_callback b g
  else g.

Definition fire_due (timer_first : bool) (now_ms : Z) (g : Globals) : Globals :=
  fire timer_first now_ms incrementButton
    (fire timer_first now_ms setTimeButton
       (fire timer_first now_ms replayButton
          (fire timer_first now_ms userButton g))).

Inductive Happening : Type :=
| Edge (b : Button)      (* a physical falling edge *)
| Tick (now : tm).       (* an iteration of the loop *)

Definition timed_step (timer_first : bool) (e : Z * Happening) (g : Globals)
  : Globals :=
  let g := fire_due timer_first (fst e) g in
  match snd e with
  | Edge b => fall b (fst e) g
  | Tick now => loop_iteration now g
  end.

Definition timed_run (timer_first : bool) (es : list (Z * Happening))
                     (g : Globals) : Globals :=
  fold_left (fun g e => timed_step timer_first e g) es g.

(* An edge is a logical press when its handler gets past the guard. *)
Definition logical_press (timer_first : bool) (b : Button) (e : Z * Happening)
                         (g : Globals) : bool :=
  match snd e with
  | Edge b' =>
      Button_eqb b b'
      && negb (debouncing (debounce_of b (fire_due timer_first (fst e) g)))
  | Tick _ => false
  end.

(* The number of logical presses of [b] in a timed run from [g]. *)
Fixpoint presses (timer_first : bool) (b : Button) (es : list (Z * Happening))
                 (g : Globals) : nat :=
  match es with
  | [] => O
  | e :: r =>
      ((if logical_press timer_first b e g then 1 else 0)
       + presses timer_first b r (timed_step timer_first e g))%nat
  end.

(* The events of [es] happen in order, between [t0] and [t1], and none of
   them is an edge of [b]. *)
Fixpoint between (b : Button) (t0 t1 : Z) (es : list (Z * Happening)) : bool :=
  match es with
  | [] => true
  | e :: r =>
      (t0 <=? fst e) && (fst e <=? t1)
      && match snd e with Edge b' => negb (Button_eqb b b') | Tick _ => true end
      && between b (fst e) t1 r
  end.

(** ** The transition table of the specification *)

Inductive Trigger : Type :=
| Press (b : Button)     (* a debounced press of a button *)
| SchedulerTick.

(* The rows of the table: LogButton is [userButton], ToggleButton is
   [replayButton], EnterButton is [setTimeButton]. *)
Definition table_row (t : Trigger) (mode : AppState) : bool :=
  match t, mode with
  | Press userButton, IDLE => true
  | SchedulerTick, LOG_TIME => true
  | Press replayButton, IDLE => true
  | Press replayButton, DISPLAY_LOG => true
  | Press setTimeButton, IDLE => true
  | Press incrementButton, SET_TIME => true
  | Press replayButton, SET_TIME => true
  | Press setTimeButton, SET_TIME => true
  | _, _ => false
  end.

(* What the program does with a trigger: the handler of the button, past
   its guard, for a press; one iteration of the loop for a tick. *)
Definition process (t : Trigger) (now_ms : Z) (now : tm) (g : Globals) : Globals :=
  match t with
  | Press b => fall b now_ms (debounce_callback b g)
  | SchedulerTick => loop_iteration now g
  end.

(* An EnterButton press taken by the handler that the loop has yet to
   serve and that changes the mode: the request to enter the editor, or
   the request to go on from the last position. *)
Definition pending_enter (g : Globals) : bool :=
  match state g with
  | IDLE => timeSetRequested g
  | SET_TIME => nextPositionPressed g && (currentEditPos g =? 18)
  | _ => false
  end.

(** ** Reading the effects *)

Definition set_time_calls (es : list Effect) : list tm :=
  flat_map (fun e => match e with Ev_set_time t => [t] | _ => [] end) es.

Definition storeCurrentTime_calls (es : list Effect) : list tm :=
  flat_map (fun e => match e with Ev_storeCurrentTime t => [t] | _ => [] end) es.

(* A press of the set-time button, past its guard, at the time [fst c],
   followed by the iteration of the loop that serves it, the clock reading
   [snd c]. *)
Definition press_setTime (c : Z * tm) (g : Globals) : Globals :=
  loop_iteration (snd c) (process (Press setTimeButton) (fst c) (snd c) g).

Definition presses_setTime (cs : list (Z * tm)) (g : Globals) : Globals :=
  fold_left (fun g c => press_setTime c g) cs g.

(* No request of the editor is waiting for the loop. *)
Definition no_request (g : Globals) : bool :=
  negb (incrementPressed g) && negb (decrementPressed g)
  && negb (nextPositionPressed g) && negb (timeSetRequested g).

(* A field of [w] characters: digits, zero-padded, after a minus sign if
   the number is negative. *)
Definition zero_padded (w : nat) (part : cstring) : Prop :=
  List.length part = w
  /\ exists sign pad,
       part = sign ++ pad
       /\ (sign = [] \/ sign = ["-"%char])
       /\ Forall (fun c => isdigit c = true) pad /\ pad <> [].

(* The fixed layout of a timestamp: six zero-padded fields between the
   separators. *)
Definition timestamp_layout (r : cstring) : Prop :=
  exists year mon day hour min sec : cstring,
    r = year ++ "/"%char :: mon ++ "/"%char :: day ++ " "%char ::
        hour ++ ":"%char :: min ++ ":"%char :: sec
    /\ zero_padded 4 year /\ zero_padded 2 mon /\ zero_padded 2 day
    /\ zero_padded 2 hour /\ zero_padded 2 min /\ zero_padded 2 sec.

(* A number that [%0wd] prints in exactly [w] characters. *)
Definition in_width (w : nat) (v : Z) : Prop :=
  - 10 ^ Z.of_nat (w - 1) < v < 10 ^ Z.of_nat w.

(* The six fields that the text of a time carries. *)
Definition clock_fields (t : tm) : tm :=
  mk_tm (tm_sec t) (tm_min t) (tm_hour t) (tm_mday t) (tm_mon t) (tm_year t)
        0 0 0.

(* The editable positions, in the order of the cursor. *)
Definition editable_positions : list Z :=
  [0; 1; 2; 3; 5; 6; 8; 9; 11; 12; 14; 15; 17; 18].

(* The editor is open at the [i]-th editable position on the text [buf],
   nothing is waiting, and [calls] are the calls of [set_time] so far. *)
Definition editing_at (buf : cstring) (calls : list tm) (i : nat)
                      (g : Globals) : Prop :=
  state g = SET_TIME /\ no_request g = true
  /\ currentEditPos g = nth i editable_positions 0
  /\ editBuffer g = buf
  /\ set_time_calls (effects g) = calls.

(* The two records as stored: the latest and the previous one. *)
Definition readBoth (dev : I2C) : cstring * cstring := fst (read_logs dev).

(* An erased EEPROM and a clock reading, for the examples. *)
Definition blank_eeprom : I2C := mk_i2c (fun _ => NUL) 0.

Definition noon : tm := mk_tm 0 30 12 15 5 125 0 165 0.

(** ** Further notions for the properties of the code *)

(* A time the editor can hold: every field but the year in its range, the
   day within the month as [getMaxDay] counts it. *)
Definition editor_valid (t : tm) : bool :=
  (0 <=? tm_mon t) && (tm_mon t <=? 11)
  && (1 <=? tm_mday t)
  && (tm_mday t <=? getMaxDay (tm_mon t + 1) (tm_year t + 1900))
  && (0 <=? tm_hour t) && (tm_hour t <=? 23)
  && (0 <=? tm_min t) && (tm_min t <=? 59)
  && (0 <=? tm_sec t) && (tm_sec t <=? 59).

(* The characters of a C string: none is NUL. *)
Definition no_NUL (s : cstring) : Prop :=
  Forall (fun c => Ascii.eqb c NUL = false) s.

(* The loop will commit the edit buffer in its next iteration. *)
Definition commits (g : Globals) : bool :=
  AppState_eqb (state g) SET_TIME && nextPositionPressed g
  && (currentEditPos g =? 18).

(* A cooldown is either idle or armed with a timeout that will end it. *)
Definition cooldown_consistent (d : Debounce) : Prop :=
  d = mk_debounce false None \/ exists t, d = mk_debounce true (Some t).

(* The times of the logical presses of [b] in a timed run from [g]. *)
Fixpoint press_times (timer_first : bool) (b : Button)
                     (es : list (Z * Happening)) (g : Globals) : list Z :=
  match es with
  | [] => []
  | e :: r =>
      (if logical_press timer_first b e g then [fst e] else [])
      ++ press_times timer_first b r (timed_step timer_first e g)
  end.

(* The events of [es] happen in order, none before [t]. *)
Fixpoint in_order (t : Z) (es : list (Z * Happening)) : bool :=
  match es with
  | [] => true
  | e :: r => (t <=? fst e) && in_order (fst e) r
  end.

(* Each time of [ts] is at least [d] after the one before it. *)
Fixpoint gaps_at_least (d : Z) (ts : list Z) : Prop :=
  match ts with
  | a :: r =>
      match r with
      | b :: _ => d <= b - a
      | [] => True
      end /\ gaps_at_least d r
  | [] => True
  end.

(* The projections of a [struct tm] on a record that is written out. *)
Ltac tm_simpl :=
  unfold set_tm_sec, set_tm_min, set_tm_hour, set_tm_mday, set_tm_mon,
    set_tm_year in *;
  cbn [tm_sec tm_min tm_hour tm_mday tm_mon tm_year tm_wday tm_yday tm_isdst]
    in *.

(** ** Evaluating the model

    The functions of the program are evaluated on a record whose flags and
    mode are known; the C library and the arithmetic are left alone. *)

Ltac eval_model :=
  cbv beta iota zeta delta
    [loop_iteration idle set_time_mode handle_nextPosition handle_decrement
     handle_increment adjust_buffer display_log displayLogs log_time
     enter_set_time updateSetTimeDisplay updateDisplay emit
     process step fall onUserButtonPressed onReplayButtonPressed
     onSetTimeButtonPressed onIncrementButtonPressed attach
     debounce_callback debounce_of set_debounce_of
     set_state set_incrementPressed set_nextPositionPressed set_editBuffer
     set_currentEditPos set_timeSetRequested set_decrementPressed
     set_debounce_user_button set_debounce_replayButton
     set_debounce_setTimeButton set_debounce_incrementButton set_i2c
     set_effects
     state incrementPressed nextPositionPressed editBuffer currentEditPos
     timeSetRequested decrementPressed debounce_user_button
     debounce_replayButton debounce_setTimeButton debounce_incrementButton
     i2c effects debouncing due
     AppState_eqb andb negb orb pending_enter no_request].

Ltac eval_model_in H :=
  cbv beta iota zeta delta
    [state incrementPressed nextPositionPressed editBuffer currentEditPos
     timeSetRequested decrementPressed debounce_user_button
     debounce_replayButton debounce_setTimeButton debounce_incrementButton
     i2c effects debouncing due debounce_of
     AppState_eqb andb negb orb pending_enter no_request] in H.

(* The branches on the result of [parseEditBufferToTm]. *)
Ltac split_parse :=
  repeat match goal with
    | |- context [match parseEditBufferToTm ?b with _ => _ end] =>
        destruct (parseEditBufferToTm b) eqn:?; eval_model
    end.

(** * Properties *)

(** ** The field editor *)

Lemma AppState_eqb_eq a b : AppState_eqb a b = true <-> a = b.
Proof. destruct a, b; simpl; split; congruence. Qed.

Lemma getCurrentFieldName_Month pos :
  5 <= pos <= 6 -> getCurrentFieldName pos = str "Month".
Proof.
  intros H. assert (pos = 5 \/ pos = 6) as [-> | ->] by lia; reflexivity.
Qed.

Lemma getCurrentFieldName_Day pos :
  8 <= pos <= 9 -> getCurrentFieldName pos = str "Day".
Proof.
  intros H. assert (pos = 8 \/ pos = 9) as [-> | ->] by lia; reflexivity.
Qed.

Lemma getMaxDay_range month year : 28 <= getMaxDay month year <= 31.
Proof.
  unfold getMaxDay.
  repeat match goal with |- context [if ?b then _ else _] => destruct b end; lia.
Qed.

(** C4. With the cursor in the Month field (positions 5 and 6), for every
    time and every [delta] that are [int]s whose sum [tm_mon + delta] the
    [int] addition of the code can hold, [adjustField] adds [delta] to the
    month; a sum above 11 becomes 0 and a sum below 0 becomes 11, so the
    month ends in [0,11] and is not clamped at the bound it passed (for one
    step up or down from a month in range it is the sum modulo 12: December
    goes to January); a day of the month above the maximum of the new month
    is lowered to that maximum, and no other field changes. *)
Theorem adjustField_month_wraps_and_clamps_day (t : tm) (pos delta : Z) :
  5 <= pos <= 6 ->
  int_range (tm_mon t) -> int_range delta ->
  int_range (tm_mon t + delta) -> int_range (tm_year t + 1900) ->
  let t' := adjustField t pos delta in
  let sum := tm_mon t + delta in
  let max_day := getMaxDay (tm_mon t' + 1) (tm_year t + 1900) in
  tm_mon t' = (if sum >? 11 then 0 else if sum <? 0 then 11 else sum)
  /\ 0 <= tm_mon t' <= 11
  /\ (0 <= tm_mon t <= 11 -> -1 <= delta <= 1 -> tm_mon t' = sum mod 12)
  /\ tm_mday t' = (if tm_mday t >? max_day then max_day else tm_mday t)
  /\ tm_mday t' <= max_day
  /\ tm_year t' = tm_year t /\ tm_hour t' = tm_hour t
  /\ tm_min t' = tm_min t /\ tm_sec t' = tm_sec t.
Proof.
  intros Hpos _ _ _ _. cbv zeta. unfold adjustField.
  rewrite (getCurrentFieldName_Month pos Hpos).
  change (my_strcmp (str "Month") (str "Year") =? 0) with false.
  change (my_strcmp (str "Month") (str "Month") =? 0) with true.
  cbv iota zeta.
  set (sum := tm_mon t + delta).
  set (mon := if sum >? 11 then 0 else if sum <? 0 then 11 else sum).
  assert (Hmon : 0 <= mon <= 11).
  { unfold mon. destruct (sum >? 11) eqn:E1; [lia|].
    destruct (sum <? 0) eqn:E2; lia. }
  assert (Hmod : 0 <= tm_mon t <= 11 -> -1 <= delta <= 1 -> mon = sum mod 12).
  { intros Hm Hd. unfold mon.
    destruct (sum >? 11) eqn:E1.
    - assert (sum = 12) as -> by lia. reflexivity.
    - destruct (sum <? 0) eqn:E2.
      + assert (sum = -1) as -> by lia. reflexivity.
      + symmetry. apply Z.mod_small. lia. }
  simpl tm_mon. simpl tm_year. simpl tm_mday.
  destruct (tm_mday t >? getMaxDay (mon + 1) (tm_year t + 1900)) eqn:E;
    simpl; rewrite ?E; repeat split; auto; lia.
Qed.

Lemma adjustField_month_wraps_and_clamps_day_witness :
  5 <= 5 <= 6
  /\ int_range 11 /\ int_range 1 /\ int_range (11 + 1)
  /\ int_range (125 + 1900)
  /\ adjustField (mk_tm 0 0 0 31 0 125 0 0 0) 5 1
     = mk_tm 0 0 0 28 1 125 0 0 0
  /\ tm_mon (adjustField (mk_tm 0 0 0 31 11 125 0 0 0) 5 1) = 0.
Proof.
  assert (R : forall z, -2147483648 <= z <= 2147483647 -> int_range z)
    by (intros z H; exact H).
  split; [lia|].
  do 4 (split; [apply R; lia|]).
  split; [reflexivity|].
  apply (adjustField_month_wraps_and_clamps_day
           (mk_tm 0 0 0 31 11 125 0 0 0) 5 1);
    first [apply R; cbn; lia | lia].
Defined.

(** C5. With the cursor in the Day field (positions 8 and 9), for every
    time and every [delta] that are [int]s whose sum [tm_mday + delta] the
    [int] addition of the code can hold,
    [adjustField] adds [delta] to the day of the month; a sum above the
    maximum of the current month becomes 1 and a sum below 1 becomes that
    maximum, so the day ends in [1, maximum]; no other field changes.  The
    maximum is 31 for January, March, May, July, August, October and
    December, 30 for April, June, September and November, and 28 for
    February whatever the year. *)
Theorem adjustField_day_wraps (t : tm) (pos delta : Z) :
  8 <= pos <= 9 ->
  int_range (tm_mday t) -> int_range delta ->
  int_range (tm_mday t + delta) ->
  int_range (tm_mon t + 1) -> int_range (tm_year t + 1900) ->
  let t' := adjustField t pos delta in
  let max_day := getMaxDay (tm_mon t + 1) (tm_year t + 1900) in
  let sum := tm_mday t + delta in
  tm_mday t' = (if sum >? max_day then 1 else if sum <? 1 then max_day else sum)
  /\ 1 <= tm_mday t' <= max_day
  /\ tm_mon t' = tm_mon t /\ tm_year t' = tm_year t /\ tm_hour t' = tm_hour t
  /\ tm_min t' = tm_min t /\ tm_sec t' = tm_sec t
  /\ (forall year,
        map (fun mon => getMaxDay (mon + 1) year) [0; 2; 4; 6; 7; 9; 11]
        = [31; 31; 31; 31; 31; 31; 31]
        /\ map (fun mon => getMaxDay (mon + 1) year) [3; 5; 8; 10]
           = [30; 30; 30; 30]
        /\ getMaxDay (1 + 1) year = 28).
Proof.
  intros Hpos _ _ _ _ _. cbv zeta. unfold adjustField.
  rewrite (getCurrentFieldName_Day pos Hpos).
  change (my_strcmp (str "Day") (str "Year") =? 0) with false.
  change (my_strcmp (str "Day") (str "Month") =? 0) with false.
  change (my_strcmp (str "Day") (str "Day") =? 0) with true.
  cbv iota zeta. simpl.
  pose proof (getMaxDay_range (tm_mon t + 1) (tm_year t + 1900)) as Hmax.
  repeat split; auto;
    destruct (tm_mday t + delta >? getMaxDay (tm_mon t + 1) (tm_year t + 1900)) eqn:E1;
    try destruct (tm_mday t + delta <? 1) eqn:E2; lia.
Qed.

Lemma adjustField_day_wraps_witness :
  8 <= 8 <= 9
  /\ int_range 28 /\ int_range 1 /\ int_range (28 + 1)
  /\ int_range (1 + 1) /\ int_range (128 + 1900)
  /\ tm_mday (adjustField (mk_tm 0 0 0 28 1 128 0 0 0) 8 1) = 1
  /\ tm_mday (adjustField (mk_tm 0 0 0 1 3 125 0 0 0) 8 (-1)) = 30.
Proof.
  assert (R : forall z, -2147483648 <= z <= 2147483647 -> int_range z)
    by (intros z H; exact H).
  split; [lia|].
  do 5 (split; [apply R; lia|]).
  split; [|reflexivity].
  apply (adjustField_day_wraps (mk_tm 0 0 0 28 1 128 0 0 0) 8 1);
    first [apply R; cbn; lia | lia].
Defined.

Lemma first_editable_0 : first_editable 19 0 = 0.
Proof. reflexivity. Qed.

(** ** The cursor *)

Lemma isEditablePosition_cases p :
  isEditablePosition p = true ->
  In p [0; 1; 2; 3; 5; 6; 8; 9; 11; 12; 14; 15; 17; 18].
Proof.
  unfold isEditablePosition, TIME_STR_SIZE.
  destruct ((p <? 0) || (p >=? 20 - 1)) eqn:E; [discriminate|].
  apply orb_false_iff in E. destruct E as [E1 E2].
  apply Z.ltb_ge in E1. rewrite Z.geb_leb in E2. apply Z.leb_gt in E2.
  intros H.
  assert (p = 0 \/ p = 1 \/ p = 2 \/ p = 3 \/ p = 4 \/ p = 5 \/ p = 6
          \/ p = 7 \/ p = 8 \/ p = 9 \/ p = 10 \/ p = 11 \/ p = 12
          \/ p = 13 \/ p = 14 \/ p = 15 \/ p = 16 \/ p = 17 \/ p = 18)
    as C by lia.
  repeat (destruct C as [-> | C]; [first [discriminate H | simpl; tauto] |]).
  subst p. simpl; tauto.
Qed.

Lemma isEditablePosition_spec p :
  isEditablePosition p = true <-> 0 <= p <= 18 /\ ~ In p separators.
Proof.
  split.
  - intros H. apply isEditablePosition_cases in H. simpl in H.
    unfold separators. simpl.
    repeat (destruct H as [<- | H]; [split; [lia | intuition discriminate] |]).
    contradiction.
  - intros [Hr Hs]. unfold isEditablePosition, TIME_STR_SIZE.
    replace ((p <? 0) || (p >=? 20 - 1)) with false.
    + apply negb_true_iff. apply not_true_is_false. intros E.
      apply existsb_exists in E. destruct E as [x [Hx E]].
      apply Z.eqb_eq in E. subst x. contradiction.
    + symmetry. apply orb_false_iff. split.
      * apply Z.ltb_ge. lia.
      * rewrite Z.geb_leb. apply Z.leb_gt. lia.
Qed.

Lemma advance_loop_ends p :
  0 <= p <= 18 ->
  exists q, advance_loop isEditablePosition 19 p p = Some q.
Proof.
  intros H.
  assert (p = 0 \/ p = 1 \/ p = 2 \/ p = 3 \/ p = 4 \/ p = 5 \/ p = 6
          \/ p = 7 \/ p = 8 \/ p = 9 \/ p = 10 \/ p = 11 \/ p = 12
          \/ p = 13 \/ p = 14 \/ p = 15 \/ p = 16 \/ p = 17 \/ p = 18)
    as C by lia.
  repeat (destruct C as [-> | C]; [eexists; vm_compute; reflexivity |]).
  subst p. eexists; vm_compute; reflexivity.
Qed.

(* The step from an editable position: one place on, or two over a
   separator, around the 19 places of the text. *)
Lemma advanceCursor_next p :
  isEditablePosition p = true ->
  exists k,
    1 <= k <= 2
    /\ advanceCursor p = (p + k) mod 19
    /\ isEditablePosition (advanceCursor p) = true
    /\ (k = 2 -> isEditablePosition ((p + 1) mod 19) = false).
Proof.
  intros H. apply isEditablePosition_cases in H. simpl in H.
  repeat (destruct H as [<- | H];
          [first [ exists 1; vm_compute; intuition congruence
                 | exists 2; vm_compute; intuition congruence ] |]).
  contradiction.
Qed.

Lemma advanceCursor_editable p :
  isEditablePosition p = true -> isEditablePosition (advanceCursor p) = true.
Proof.
  intros H. destruct (advanceCursor_next p H) as [k [_ [_ [E _]]]]. exact E.
Qed.

(* With any other test of the positions: when no position but the start
   passes the test, the loop comes back to the start. *)
Lemma advance_loop_round (editable : Z -> bool) p :
  0 <= p <= 18 ->
  (forall q, 0 <= q <= 18 -> q <> p -> editable q = false) ->
  forall (n : nat) (j : Z),
    (1 <= n)%nat -> 0 <= j -> Z.of_nat n + j = 19 ->
    advance_loop editable n p ((p + j) mod 19) = Some p.
Proof.
  intros Hp Hq n. induction n as [|n IH]; intros j Hn Hj Hsum; [lia|].
  cbn [advance_loop]. unfold TIME_STR_SIZE. change (20 - 1) with 19.
  assert (Hm : 0 <= (p + j) mod 19 < 19) by (apply Z.mod_pos_bound; lia).
  rewrite Z.rem_mod_nonneg by lia.
  rewrite Zplus_mod_idemp_l.
  assert (Hx : 0 <= (p + j + 1) mod 19 < 19) by (apply Z.mod_pos_bound; lia).
  destruct (Z.eq_dec j 18) as [-> | Hj18].
  - replace (p + 18 + 1) with (p + 1 * 19) by lia.
    rewrite Z_mod_plus_full, Z.mod_small by lia.
    rewrite Z.eqb_refl. reflexivity.
  - assert (Hne : (p + j + 1) mod 19 <> p).
    { destruct (Z_lt_ge_dec (p + j + 1) 19) as [Hlt | Hge].
      - rewrite Z.mod_small by lia. lia.
      - replace (p + j + 1) with (p + j + 1 - 19 + 1 * 19) by lia.
        rewrite Z_mod_plus_full, Z.mod_small by lia. lia. }
    apply Z.eqb_neq in Hne. rewrite Hne.
    rewrite (Hq ((p + j + 1) mod 19)) by (try apply Z.eqb_neq; auto; lia).
    cbn [negb].
    replace (p + j + 1) with (p + (j + 1)) by lia.
    apply IH; lia.
Qed.

Lemma advance_loop_same (editable : Z -> bool) p :
  0 <= p <= 18 ->
  (forall q, 0 <= q <= 18 -> q <> p -> editable q = false) ->
  advance_loop editable 19 p p = Some p.
Proof.
  intros Hp Hq.
  assert (E : (p + 0) mod 19 = p) by (rewrite Z.add_0_r; apply Z.mod_small; lia).
  pose proof (advance_loop_round editable p Hp Hq 19 0) as H.
  rewrite E in H. apply H; [lia | lia | reflexivity].
Qed.

(** ** The state machine *)

Lemma loop_iteration_state now g :
  state (loop_iteration now g) =
  match state g with
  | LOG_TIME => IDLE
  | IDLE => if timeSetRequested g then SET_TIME else IDLE
  | SET_TIME =>
      if nextPositionPressed g && (currentEditPos g =? 18) then IDLE
      else SET_TIME
  | DISPLAY_LOG => DISPLAY_LOG
  end.
Proof.
  destruct g as [st inc nxt buf pos tsr dec d1 d2 d3 d4 dev eff].
  destruct st, inc, nxt, tsr, dec; eval_model; try reflexivity;
    destruct (pos =? 18) eqn:E; eval_model; reflexivity.
Qed.

Lemma fall_unfold b now_ms g :
  table_row (Press b) (state g) = false ->
  fall b now_ms g
  = if debouncing (debounce_of b g) then g else attach b now_ms g.
Proof.
  destruct g as [st inc nxt buf pos tsr dec d1 d2 d3 d4 dev eff].
  destruct b, st; cbn [table_row state]; intros H; try discriminate H;
    eval_model; reflexivity.
Qed.

Lemma fall_currentEditPos b now_ms g :
  currentEditPos (fall b now_ms g) = currentEditPos g.
Proof.
  destruct g as [st inc nxt buf pos tsr dec [f1 t1] [f2 t2] [f3 t3] [f4 t4] dev eff].
  destruct b, st, f1, f2, f3, f4; reflexivity.
Qed.

Lemma loop_iteration_editable now g :
  isEditablePosition (currentEditPos g) = true ->
  isEditablePosition (currentEditPos (loop_iteration now g)) = true.
Proof.
  destruct g as [st inc nxt buf pos tsr dec d1 d2 d3 d4 dev eff].
  intros H. eval_model_in H.
  destruct st, inc, nxt, tsr, dec; eval_model; auto;
    rewrite ?first_editable_0;
    try (apply advanceCursor_editable; reflexivity);
    try reflexivity;
    destruct (pos =? 18) eqn:E; eval_model; split_parse; auto;
    apply advanceCursor_editable; auto.
Qed.

Lemma reachable_editable g :
  reachable g -> isEditablePosition (currentEditPos g) = true.
Proof.
  induction 1 as [dev | e g Hg IH].
  - reflexivity.
  - destruct e as [b now_ms | b | now]; cbn [step].
    + rewrite fall_currentEditPos. exact IH.
    + destruct b; exact IH.
    + apply loop_iteration_editable. exact IH.
Qed.

Lemma reachable_run es g : reachable g -> reachable (run es g).
Proof.
  revert g. induction es as [|e es IH]; intros g Hg; [exact Hg|].
  cbn [run fold_left]. apply IH. apply reachable_step. exact Hg.
Qed.

Lemma enter_set_time_cursor now g :
  state g = IDLE -> timeSetRequested g = true ->
  state (enter_set_time now g) = SET_TIME
  /\ currentEditPos (enter_set_time now g) = 0
  /\ editBuffer (enter_set_time now g) = strftime_timestamp now.
Proof.
  destruct g as [st inc nxt buf pos tsr dec d1 d2 d3 d4 dev eff].
  cbn [state timeSetRequested]. intros -> ->. eval_model.
  repeat split; reflexivity.
Qed.

Lemma loop_iteration_advances now g :
  state g = SET_TIME -> nextPositionPressed g = true ->
  currentEditPos g <> 18 ->
  state (loop_iteration now g) = SET_TIME
  /\ currentEditPos (loop_iteration now g) = advanceCursor (currentEditPos g).
Proof.
  destruct g as [st inc nxt buf pos tsr dec d1 d2 d3 d4 dev eff].
  cbn [state nextPositionPressed currentEditPos]. intros -> -> H.
  apply Z.eqb_neq in H.
  destruct inc, tsr, dec; eval_model; rewrite H; eval_model;
    split; reflexivity.
Qed.

(** C8. In every reachable state whose mode is SET_TIME the cursor lies in
    [0,18] and is none of the separator positions 4, 7, 10, 13, 16.  On
    entry the cursor is set to position 0, the first editable one.  A step
    of the cursor in the loop takes an editable position to the next
    editable one, one place on or two over a separator, around the 19
    places; and whatever the test of the positions, the stepping loop gives
    back the start when no other place of [0,18] passes the test. *)
Theorem cursor_stays_on_editable_positions :
  (forall g, reachable g -> state g = SET_TIME ->
     0 <= currentEditPos g <= 18 /\ ~ In (currentEditPos g) separators)
  /\ (forall now g, state g = IDLE -> timeSetRequested g = true ->
       state (enter_set_time now g) = SET_TIME
       /\ currentEditPos (enter_set_time now g) = 0
       /\ isEditablePosition 0 = true
       /\ forall q, isEditablePosition q = true -> 0 <= q)
  /\ (forall now g, state g = SET_TIME -> nextPositionPressed g = true ->
       currentEditPos g <> 18 ->
       currentEditPos (loop_iteration now g) = advanceCursor (currentEditPos g))
  /\ (forall p, isEditablePosition p = true ->
       exists k, 1 <= k <= 2
                 /\ advanceCursor p = (p + k) mod 19
                 /\ isEditablePosition (advanceCursor p) = true
                 /\ (k = 2 -> isEditablePosition ((p + 1) mod 19) = false))
  /\ (forall (editable : Z -> bool) p, 0 <= p <= 18 ->
       (forall q, 0 <= q <= 18 -> q <> p -> editable q = false) ->
       advance_loop editable 19 p p = Some p).
Proof.
  split; [|split; [|split; [|split]]].
  - intros g Hg _. apply isEditablePosition_spec.
    apply reachable_editable. exact Hg.
  - intros now g Hs Ht.
    destruct (enter_set_time_cursor now g Hs Ht) as [H1 [H2 _]].
    repeat split; auto.
    intros q Hq. apply isEditablePosition_spec in Hq. lia.
  - intros now g Hs Hn Hp.
    apply (loop_iteration_advances now g Hs Hn Hp).
  - exact advanceCursor_next.
  - exact advance_loop_same.
Qed.

Lemma cursor_stays_on_editable_positions_witness :
  let g := run [Fall setTimeButton 0; Poll noon;
                Expire setTimeButton; Fall setTimeButton 300; Poll noon]
               (startup blank_eeprom) in
  reachable g /\ state g = SET_TIME
  /\ (0 <= currentEditPos g <= 18 /\ ~ In (currentEditPos g) separators).
Proof.
  cbv zeta.
  assert (R : reachable
                (run [Fall setTimeButton 0; Poll noon;
                      Expire setTimeButton; Fall setTimeButton 300; Poll noon]
                     (startup blank_eeprom))).
  { apply reachable_run. apply reachable_startup. }
  split; [exact R|].
  split; [reflexivity|].
  apply (proj1 cursor_stays_on_editable_positions _ R). reflexivity.
Defined.

Lemma process_press_off_table b now_ms now g :
  table_row (Press b) (state g) = false ->
  process (Press b) now_ms now g = attach b now_ms g.
Proof.
  destruct g as [st inc nxt buf pos tsr dec d1 d2 d3 d4 dev eff].
  destruct b, st; cbn [table_row state]; intros H; try discriminate H;
    eval_model; reflexivity.
Qed.

Lemma attach_state b now_ms g : state (attach b now_ms g) = state g.
Proof. destruct b; reflexivity. Qed.

Lemma attach_loop_state b now_ms now g :
  state (loop_iteration now (attach b now_ms g))
  = state (loop_iteration now g).
Proof.
  rewrite !loop_iteration_state. destruct b; reflexivity.
Qed.

Lemma attach_pending b now_ms g :
  pending_enter (attach b now_ms g) = pending_enter g
  /\ no_request (attach b now_ms g) = no_request g.
Proof. destruct b; split; reflexivity. Qed.

(** C2. A trigger for which the table has no row at the current mode
    leaves the mode as it is.  For a button press: the handler, past its
    guard, changes nothing but the cooldown of that button, so the mode is
    as before and no request is posted to the loop; an edge that the guard
    suppresses changes nothing at all; and the iteration of the loop that
    follows the press ends in the mode in which it would have ended without
    the press.  For the scheduler tick, in a mode other than LOG_TIME: an
    iteration of the loop with no accepted press of the set-time button
    waiting leaves the mode as it is; the iteration that serves such a
    press applies the row of that press, which the table has at this mode
    (Enter in IDLE and Enter in SET_TIME). *)
Theorem noop_law (t : Trigger) (now_ms : Z) (now : tm) (g : Globals) :
  table_row t (state g) = false ->
  match t with
  | Press b =>
      process (Press b) now_ms now g = attach b now_ms g
      /\ state (process (Press b) now_ms now g) = state g
      /\ pending_enter (process (Press b) now_ms now g) = pending_enter g
      /\ no_request (process (Press b) now_ms now g) = no_request g
      /\ fall b now_ms g
         = (if debouncing (debounce_of b g) then g else attach b now_ms g)
      /\ state (loop_iteration now (process (Press b) now_ms now g))
         = state (loop_iteration now g)
  | SchedulerTick =>
      (pending_enter g = false ->
       state (process SchedulerTick now_ms now g) = state g)
      /\ (pending_enter g = true ->
          table_row (Press setTimeButton) (state g) = true)
  end.
Proof.
  intros Hrow. destruct t as [b|].
  - rewrite (process_press_off_table b now_ms now g Hrow).
    destruct (attach_pending b now_ms g) as [P R].
    split; [reflexivity|]. split; [apply attach_state|].
    split; [exact P|]. split; [exact R|].
    split; [apply fall_unfold; exact Hrow | apply attach_loop_state].
  - split.
    + intros Hpend. cbn [process]. rewrite loop_iteration_state.
      unfold pending_enter in Hpend.
      destruct (state g); cbn [table_row] in Hrow;
        try discriminate Hrow; try rewrite Hpend; reflexivity.
    + unfold pending_enter.
      destruct (state g); intros H; try discriminate H; reflexivity.
Qed.

Lemma noop_law_witness :
  table_row (Press incrementButton) (state (startup blank_eeprom)) = false
  /\ process (Press incrementButton) 0 noon (startup blank_eeprom)
     = attach incrementButton 0 (startup blank_eeprom).
Proof.
  split; [reflexivity|].
  apply (noop_law (Press incrementButton) 0 noon (startup blank_eeprom)).
  reflexivity.
Defined.

(** C7. From IDLE, a press of the user button that gets past the guard
    sets the mode to LOG_TIME, and the next iteration of the loop calls
    [storeCurrentTime], once and with the time the clock reads, and puts
    the mode back to IDLE; the EEPROM is what that one call leaves.  An
    iteration that starts in LOG_TIME ends in IDLE and no iteration of the
    loop ends in LOG_TIME, so the mode is never LOG_TIME over two
    iterations. *)
Theorem log_press_then_tick (now_ms : Z) (now : tm) (g : Globals) :
  state g = IDLE ->
  debouncing (debounce_user_button g) = false ->
  let g1 := onUserButtonPressed now_ms g in
  let g2 := loop_iteration now g1 in
  state g1 = LOG_TIME
  /\ state g2 = IDLE
  /\ storeCurrentTime_calls (effects g2)
     = now :: storeCurrentTime_calls (effects g)
  /\ i2c g2 = storeCurrentTime now (i2c g)
  /\ (forall now' g',
        state g' = LOG_TIME -> state (loop_iteration now' g') = IDLE)
  /\ (forall now' g', state (loop_iteration now' g') <> LOG_TIME).
Proof.
  destruct g as [st inc nxt buf pos tsr dec [f1 t1] d2 d3 d4 dev eff].
  cbn [state debounce_user_button debouncing]. intros -> ->. cbv zeta.
  split; [reflexivity|].
  split; [destruct tsr; reflexivity|].
  split; [destruct tsr; reflexivity|].
  split; [destruct tsr; reflexivity|].
  split; [intros now' g' E; rewrite loop_iteration_state, E; reflexivity|].
  intros now' g'. rewrite loop_iteration_state.
  destruct (state g'); try discriminate.
  - destruct (timeSetRequested g'); discriminate.
  - destruct (nextPositionPressed g' && (currentEditPos g' =? 18)); discriminate.
Qed.

Lemma log_press_then_tick_witness :
  state (startup blank_eeprom) = IDLE
  /\ debouncing (debounce_user_button (startup blank_eeprom)) = false
  /\ state (loop_iteration noon (onUserButtonPressed 0 (startup blank_eeprom)))
     = IDLE.
Proof.
  split; [reflexivity|]. split; [reflexivity|].
  apply (log_press_then_tick 0 noon (startup blank_eeprom)); reflexivity.
Defined.

(** C10. In SET_TIME with the cursor at position 18, when the request to
    go on is served and the edit buffer does not parse, the mode becomes
    IDLE, [set_time] is not called, and the buffer is left as it was: the
    clock keeps running on its old time. *)
Theorem commit_of_unparsable_buffer (now : tm) (g : Globals) :
  state g = SET_TIME ->
  nextPositionPressed g = true ->
  currentEditPos g = 18 ->
  parseEditBufferToTm (editBuffer g) = None ->
  let g' := loop_iteration now g in
  state g' = IDLE
  /\ set_time_calls (effects g') = set_time_calls (effects g)
  /\ editBuffer g' = editBuffer g.
Proof.
  destruct g as [st inc nxt buf pos tsr dec d1 d2 d3 d4 dev eff].
  cbn [state nextPositionPressed currentEditPos editBuffer].
  intros -> -> -> Hp. cbv zeta.
  destruct inc, dec, tsr; eval_model; rewrite ?Hp; eval_model;
    rewrite ?Hp; repeat split; reflexivity.
Qed.

Lemma commit_of_unparsable_buffer_witness :
  let g := mk_globals SET_TIME false true (str "2025/06/15 12:3x:00") 18
             false false (mk_debounce false None) (mk_debounce false None)
             (mk_debounce true (Some 200)) (mk_debounce false None)
             blank_eeprom [] in
  parseEditBufferToTm (editBuffer g) = None
  /\ state (loop_iteration noon g) = IDLE
  /\ set_time_calls (effects (loop_iteration noon g)) = [].
Proof.
  cbv zeta. split; [reflexivity|].
  pose proof (commit_of_unparsable_buffer noon
    (mk_globals SET_TIME false true (str "2025/06/15 12:3x:00") 18
       false false (mk_debounce false None) (mk_debounce false None)
       (mk_debounce true (Some 200)) (mk_debounce false None)
       blank_eeprom [])
    eq_refl eq_refl eq_refl eq_refl) as [H1 [H2 _]].
  split; [exact H1 | exact H2].
Defined.

(** ** The C library: printing and scanning numbers *)

Lemma code_char_of z : 0 <= z < 256 -> code (char_of z) = z.
Proof.
  intros H. unfold code, char_of.
  rewrite N_ascii_embedding by lia. lia.
Qed.

Lemma char_of_digit d :
  0 <= d <= 9 ->
  isdigit (char_of (48 + d)) = true /\ digit_val (char_of (48 + d)) = d.
Proof.
  intros H. unfold isdigit, digit_val. rewrite code_char_of by lia.
  split; [|lia].
  apply andb_true_iff. split; apply Z.leb_le; lia.
Qed.

Lemma isdigit_not_space_or_sign c :
  isdigit c = true ->
  isspace c = false /\ Ascii.eqb c "-" = false /\ Ascii.eqb c "+" = false.
Proof.
  unfold isdigit, isspace. intros H.
  apply andb_true_iff in H. destruct H as [H1 H2].
  apply Z.leb_le in H1. apply Z.leb_le in H2.
  split; [|split].
  - apply orb_false_iff. split.
    + apply Z.eqb_neq. lia.
    + apply andb_false_iff. right. apply Z.leb_gt. lia.
  - destruct (Ascii.eqb_spec c "-") as [-> | _]; [|reflexivity].
    vm_compute in H1. exfalso. apply H1. reflexivity.
  - destruct (Ascii.eqb_spec c "+") as [-> | _]; [|reflexivity].
    vm_compute in H1. exfalso. apply H1. reflexivity.
Qed.

Lemma decimal_value_snoc ds c :
  decimal_value (ds ++ [c]) = 10 * decimal_value ds + digit_val c.
Proof. unfold decimal_value. rewrite fold_left_app. reflexivity. Qed.

Lemma decimal_value_zeros m ds :
  decimal_value (repeat "0"%char m ++ ds) = decimal_value ds.
Proof.
  unfold decimal_value. rewrite fold_left_app. f_equal.
  induction m as [|m IH]; [reflexivity|]. cbn [repeat fold_left]. exact IH.
Qed.

Lemma decimal_value_bound ds :
  Forall (fun c => isdigit c = true) ds ->
  0 <= decimal_value ds < 10 ^ Z.of_nat (List.length ds).
Proof.
  induction ds as [|c ds IH] using rev_ind; intros H.
  - cbn. lia.
  - apply Forall_app in H. destruct H as [H1 H2].
    specialize (IH H1). inversion H2 as [|? ? Hc _]; subst.
    rewrite decimal_value_snoc, length_app. cbn [List.length].
    rewrite Nat2Z.inj_add, Z.pow_add_r by lia. change (10 ^ Z.of_nat 1) with 10.
    unfold isdigit in Hc. apply andb_true_iff in Hc. destruct Hc as [Hc1 Hc2].
    apply Z.leb_le in Hc1. apply Z.leb_le in Hc2. unfold digit_val. lia.
Qed.

Lemma digits_fuel_acc f : forall n acc,
  digits_fuel f n acc = digits_fuel f n [] ++ acc.
Proof.
  induction f as [|f IH]; intros n acc; [reflexivity|].
  cbn [digits_fuel]. destruct (n <? 10); [reflexivity|].
  rewrite (IH (n / 10) (_ :: acc)), (IH (n / 10) [_]).
  rewrite <- app_assoc. reflexivity.
Qed.

Lemma digits_fuel_spec f : forall n,
  (1 <= f)%nat -> 0 <= n < 2 ^ Z.of_nat f ->
  let ds := digits_fuel f n [] in
  decimal_value ds = n
  /\ Forall (fun c => isdigit c = true) ds
  /\ ds <> [].
Proof.
  induction f as [|f IH]; intros n Hf Hn; [lia|]. cbv zeta.
  cbn [digits_fuel].
  assert (Hd : 0 <= n mod 10 <= 9) by (pose proof (Z.mod_pos_bound n 10); lia).
  destruct (char_of_digit (n mod 10) Hd) as [D1 D2].
  destruct (n <? 10) eqn:E.
  - apply Z.ltb_lt in E. rewrite Z.mod_small in * by lia.
    repeat split.
    + unfold decimal_value. cbn [fold_left]. rewrite D2. lia.
    + constructor; [exact D1 | constructor].
    + discriminate.
  - apply Z.ltb_ge in E. rewrite digits_fuel_acc.
    assert (Hq : 0 <= n / 10 < 2 ^ Z.of_nat f).
    { rewrite Nat2Z.inj_succ, Z.pow_succ_r in Hn by lia.
      split; [apply Z.div_pos; lia|].
      apply Z.div_lt_upper_bound; lia. }
    assert (Hf' : (1 <= f)%nat).
    { destruct f; [|lia]. cbn in Hq. assert (n / 10 = 0) by lia.
      apply Z.div_small_iff in H; lia. }
    destruct (IH (n / 10) Hf' Hq) as [V [F N]].
    repeat split.
    + rewrite decimal_value_snoc, V, D2. symmetry. apply Z.div_mod. lia.
    + apply Forall_app. split; [exact F|]. constructor; [exact D1 | constructor].
    + intros C. apply app_eq_nil in C. destruct C as [_ C]. discriminate C.
Qed.

Lemma digits_spec n :
  0 <= n ->
  decimal_value (digits n) = n
  /\ Forall (fun c => isdigit c = true) (digits n)
  /\ digits n <> [].
Proof.
  intros H. unfold digits. apply digits_fuel_spec; [lia|].
  rewrite Nat2Z.inj_succ, Z2Nat.id by apply Z.log2_nonneg.
  destruct (Z.eq_dec n 0) as [-> | Hn]; [cbn; lia|].
  pose proof (Z.log2_spec n). lia.
Qed.

Lemma digits_fuel_length f : forall n k,
  (1 <= k)%nat -> 0 <= n < 10 ^ Z.of_nat k ->
  (List.length (digits_fuel f n []) <= k)%nat.
Proof.
  induction f as [|f IH]; intros n k Hk Hn; [cbn; lia|].
  cbn [digits_fuel]. destruct (n <? 10) eqn:E; [cbn; lia|].
  apply Z.ltb_ge in E. rewrite digits_fuel_acc, length_app. cbn [List.length].
  destruct k as [|k]; [lia|].
  destruct k as [|k]; [cbn in Hn; lia|].
  assert (List.length (digits_fuel f (n / 10) []) <= S k)%nat; [|lia].
  apply IH; [lia|].
  rewrite Nat2Z.inj_succ, Z.pow_succ_r in Hn by lia.
  split; [apply Z.div_pos; lia|].
  apply Z.div_lt_upper_bound; lia.
Qed.

Lemma digits_length n k :
  (1 <= k)%nat -> 0 <= n < 10 ^ Z.of_nat k -> (List.length (digits n) <= k)%nat.
Proof. intros. unfold digits. apply digits_fuel_length; assumption. Qed.

Lemma pad_zero_spec w ds :
  Forall (fun c => isdigit c = true) ds -> ds <> [] ->
  (List.length ds <= w)%nat ->
  List.length (pad_zero w ds) = w
  /\ Forall (fun c => isdigit c = true) (pad_zero w ds)
  /\ decimal_value (pad_zero w ds) = decimal_value ds.
Proof.
  intros F N L. unfold pad_zero. repeat split.
  - rewrite length_app, repeat_length. lia.
  - apply Forall_app. split; [|exact F].
    apply Forall_forall. intros c Hc. apply repeat_spec in Hc. subst c.
    reflexivity.
  - apply decimal_value_zeros.
Qed.

Lemma take_digits_all ds rest :
  Forall (fun c => isdigit c = true) ds ->
  take_digits (Some (List.length ds)) (ds ++ rest) = (ds, rest).
Proof.
  induction 1 as [|c ds Hc _ IH].
  - cbn. destruct rest as [|c r]; [reflexivity|].
    cbn. rewrite andb_false_r. reflexivity.
  - cbn [List.length app take_digits width_left width_pred].
    rewrite Hc. cbn [andb]. rewrite IH. reflexivity.
Qed.

Lemma take_digits_bound w : forall s ds rest,
  take_digits (Some w) s = (ds, rest) ->
  Forall (fun c => isdigit c = true) ds /\ (List.length ds <= w)%nat.
Proof.
  induction w as [|w IH]; intros s ds rest H.
  - destruct s as [|c r]; cbn in H.
    + injection H as <- <-. split; [constructor | cbn; lia].
    + rewrite andb_false_r in H. injection H as <- <-.
      split; [constructor | cbn; lia].
  - destruct s as [|c r]; cbn [take_digits width_left width_pred] in H.
    + injection H as <- <-. split; [constructor | cbn; lia].
    + destruct (isdigit c) eqn:Hc; cbn [andb] in H.
      * destruct (take_digits (Some w) r) as [ds' rest'] eqn:E.
        injection H as <- <-. destruct (IH _ _ _ E) as [F L].
        split; [constructor; assumption | cbn; lia].
      * injection H as <- <-. split; [constructor | cbn; lia].
Qed.

Lemma sprintf_0d_shape w v :
  (2 <= w)%nat -> - 10 ^ Z.of_nat (w - 1) < v < 10 ^ Z.of_nat w ->
  exists sign pad,
    sprintf_0d w v = sign ++ pad
    /\ (sign = [] /\ 0 <= v \/ sign = ["-"%char] /\ v < 0)
    /\ Forall (fun c => isdigit c = true) pad /\ pad <> []
    /\ decimal_value pad = Z.abs v
    /\ List.length (sign ++ pad) = w.
Proof.
  intros Hw Hv. unfold sprintf_0d. destruct (v <? 0) eqn:E.
  - apply Z.ltb_lt in E.
    destruct (digits_spec (- v)) as [V [F N]]; [lia|].
    assert (L : (List.length (digits (- v)) <= w - 1)%nat)
      by (apply digits_length; lia).
    destruct (pad_zero_spec (w - 1) _ F N L) as [PL [PF PV]].
    exists ["-"%char], (pad_zero (w - 1) (digits (- v))).
    repeat split; auto.
    + intros C. unfold pad_zero in C. apply app_eq_nil in C.
      destruct C as [_ C]. contradiction.
    + rewrite PV, V. lia.
    + cbn [app List.length]. rewrite PL. lia.
  - apply Z.ltb_ge in E.
    destruct (digits_spec v E) as [V [F N]].
    assert (L : (List.length (digits v) <= w)%nat)
      by (apply digits_length; lia).
    destruct (pad_zero_spec w _ F N L) as [PL [PF PV]].
    exists [], (pad_zero w (digits v)).
    repeat split; auto.
    + intros C. unfold pad_zero in C. apply app_eq_nil in C.
      destruct C as [_ C]. contradiction.
    + rewrite PV, V. lia.
Qed.

Lemma sprintf_0d_length w v :
  (2 <= w)%nat -> - 10 ^ Z.of_nat (w - 1) < v < 10 ^ Z.of_nat w ->
  List.length (sprintf_0d w v) = w.
Proof.
  intros Hw Hv.
  destruct (sprintf_0d_shape w v Hw Hv) as [sg [pad [E [_ [_ [_ [_ L]]]]]]].
  rewrite E. exact L.
Qed.

Lemma skip_space_sprintf_0d w v rest :
  (2 <= w)%nat -> - 10 ^ Z.of_nat (w - 1) < v < 10 ^ Z.of_nat w ->
  skip_space (sprintf_0d w v ++ rest) = sprintf_0d w v ++ rest.
Proof.
  intros Hw Hv.
  destruct (sprintf_0d_shape w v Hw Hv) as [sg [pad [E [S [F [N _]]]]]].
  rewrite E. destruct S as [[-> _] | [-> _]]; [|reflexivity].
  destruct pad as [|c r]; [contradiction|].
  inversion F as [|? ? Hc _]; subst.
  destruct (isdigit_not_space_or_sign c Hc) as [Hs _].
  cbn [app skip_space]. rewrite Hs. reflexivity.
Qed.

(* What [sprintf] prints within the width, [sscanf] reads back. *)
Lemma scan_int_sprintf_0d w v rest :
  (2 <= w)%nat -> - 10 ^ Z.of_nat (w - 1) < v < 10 ^ Z.of_nat w ->
  scan_int (Some w) (sprintf_0d w v ++ rest) = Some (v, rest).
Proof.
  intros Hw Hv. unfold scan_int.
  rewrite (skip_space_sprintf_0d w v rest Hw Hv).
  destruct (sprintf_0d_shape w v Hw Hv) as [sg [pad [E [S [F [N [V L]]]]]]].
  rewrite E. destruct w as [|w]; [lia|].
  destruct S as [[-> Hs] | [-> Hs]].
  - destruct pad as [|c r] eqn:Ep; [contradiction|].
    inversion F as [|? ? Hc _]; subst.
    destruct (isdigit_not_space_or_sign c Hc) as [_ [H1 H2]].
    cbn [app]. rewrite H1, H2. cbn [orb andb].
    change (c :: r ++ rest) with ((c :: r) ++ rest).
    cbn [app] in L. rewrite <- L.
    rewrite (take_digits_all (c :: r) rest F).
    rewrite V. f_equal. f_equal. lia.
  - cbn [app List.length] in L. injection L as L.
    cbn [app]. change (Ascii.eqb "-" "-") with true.
    cbn [orb andb width_left width_pred]. rewrite <- L.
    rewrite (take_digits_all pad rest F).
    destruct pad as [|c r]; [contradiction|].
    rewrite V. f_equal. f_equal. lia.
Qed.

(* What [sscanf] reads within a width is a number of that many places. *)
Lemma scan_int_range w s v rest :
  scan_int (Some w) s = Some (v, rest) ->
  - 10 ^ Z.of_nat (w - 1) < v < 10 ^ Z.of_nat w.
Proof.
  unfold scan_int.
  assert (P : forall n ds r (neg : bool) s',
             (n <= w)%nat -> (neg = true -> n <= w - 1)%nat ->
             take_digits (Some n) s' = (ds, r) ->
             match ds with
             | [] => None
             | _ :: _ =>
                 Some (if neg then - decimal_value ds else decimal_value ds, r)
             end = Some (v, rest) ->
             - 10 ^ Z.of_nat (w - 1) < v < 10 ^ Z.of_nat w).
  { intros n ds r neg s' Hn Hneg T H.
    destruct (take_digits_bound _ _ _ _ T) as [F L].
    pose proof (decimal_value_bound ds F) as B.
    destruct ds as [|c ds']; [discriminate H|].
    injection H as <- <-.
    assert (M1 : 10 ^ Z.of_nat (List.length (c :: ds')) <= 10 ^ Z.of_nat w)
      by (apply Z.pow_le_mono_r; lia).
    assert (P0 : 0 < 10 ^ Z.of_nat (w - 1)) by (apply Z.pow_pos_nonneg; lia).
    destruct neg; [|lia].
    assert (M2 : 10 ^ Z.of_nat (List.length (c :: ds')) <= 10 ^ Z.of_nat (w - 1))
      by (apply Z.pow_le_mono_r; specialize (Hneg eq_refl); lia).
    lia. }
  destruct (skip_space s) as [|c r] eqn:E.
  - cbn. discriminate.
  - destruct ((Ascii.eqb c "-" || Ascii.eqb c "+") && width_left (Some w)) eqn:G.
    + destruct w as [|w']; [rewrite andb_false_r in G; discriminate G|].
      cbn [width_pred].
      destruct (take_digits (Some w') r) as [ds r'] eqn:T.
      intros H.
      destruct (Ascii.eqb c "-").
      * apply (P w' ds r' true r); auto; lia.
      * assert (H' : match ds with
                     | [] => None
                     | _ :: _ => Some (if true then - decimal_value ds
                                       else decimal_value ds, r')
                     end = Some (- v, rest)).
        { destruct ds; [discriminate H|]. injection H as <- <-. reflexivity. }
        pose proof (P w' ds r' true r ltac:(lia) ltac:(lia) T) as Q.
        destruct (take_digits_bound _ _ _ _ T) as [F L].
        pose proof (decimal_value_bound ds F) as B.
        destruct ds as [|c0 ds']; [discriminate H|].
        injection H as <- <-.
        assert (M2 : 10 ^ Z.of_nat (List.length (c0 :: ds'))
                     <= 10 ^ Z.of_nat (S w' - 1))
          by (apply Z.pow_le_mono_r; lia).
        assert (M3 : 10 ^ Z.of_nat (S w' - 1) <= 10 ^ Z.of_nat (S w'))
          by (apply Z.pow_le_mono_r; lia).
        lia.
    + destruct (take_digits (Some w) (c :: r)) as [ds r'] eqn:T.
      intros H. apply (P w ds r' false (c :: r)); auto; discriminate.
Qed.

(** ** Timestamps: [sscanf] after [sprintf], and the layout *)

Lemma sscanf_sprintf_timestamp year mon day hour min sec :
  in_width 4 year -> in_width 2 mon -> in_width 2 day ->
  in_width 2 hour -> in_width 2 min -> in_width 2 sec ->
  sscanf_timestamp (Some 4%nat) (Some 2%nat)
    (sprintf_timestamp year mon day hour min sec)
  = Some (year, mon, day, hour, min, sec).
Proof.
  unfold in_width. intros Hy Hmo Hd Hh Hmi Hs.
  unfold sscanf_timestamp, sprintf_timestamp.
  rewrite scan_int_sprintf_0d by (auto; lia).
  cbn [bind scan_char]. change (Ascii.eqb "/" "/") with true. cbn [bind].
  rewrite scan_int_sprintf_0d by (auto; lia).
  cbn [bind scan_char]. change (Ascii.eqb "/" "/") with true. cbn [bind].
  rewrite scan_int_sprintf_0d by (auto; lia).
  cbn [bind skip_space]. change (isspace " ") with true. cbv iota.
  rewrite skip_space_sprintf_0d by (auto; lia).
  rewrite scan_int_sprintf_0d by (auto; lia).
  cbn [bind scan_char]. change (Ascii.eqb ":" ":") with true. cbn [bind].
  rewrite scan_int_sprintf_0d by (auto; lia).
  cbn [bind scan_char]. change (Ascii.eqb ":" ":") with true. cbn [bind].
  rewrite <- (app_nil_r (sprintf_0d 2 sec)).
  rewrite scan_int_sprintf_0d by (auto; lia).
  reflexivity.
Qed.

Lemma sscanf_timestamp_range s year mon day hour min sec :
  sscanf_timestamp (Some 4%nat) (Some 2%nat) s
  = Some (year, mon, day, hour, min, sec) ->
  in_width 4 year /\ in_width 2 mon /\ in_width 2 day
  /\ in_width 2 hour /\ in_width 2 min /\ in_width 2 sec.
Proof.
  unfold sscanf_timestamp, bind.
  destruct (scan_int (Some 4%nat) s) as [[y s1]|] eqn:E1; [|discriminate].
  destruct (scan_char "/" s1) as [s2|]; [|discriminate].
  destruct (scan_int (Some 2%nat) s2) as [[mo s3]|] eqn:E2; [|discriminate].
  destruct (scan_char "/" s3) as [s4|]; [|discriminate].
  destruct (scan_int (Some 2%nat) s4) as [[d s5]|] eqn:E3; [|discriminate].
  destruct (scan_int (Some 2%nat) (skip_space s5)) as [[h s6]|] eqn:E4;
    [|discriminate].
  destruct (scan_char ":" s6) as [s7|]; [|discriminate].
  destruct (scan_int (Some 2%nat) s7) as [[mi s8]|] eqn:E5; [|discriminate].
  destruct (scan_char ":" s8) as [s9|]; [|discriminate].
  destruct (scan_int (Some 2%nat) s9) as [[se s10]|] eqn:E6; [|discriminate].
  intros H. injection H as <- <- <- <- <- <-.
  unfold in_width.
  repeat split; eapply scan_int_range; eassumption.
Qed.

Lemma sprintf_0d_zero_padded w v :
  (2 <= w)%nat -> in_width w v -> zero_padded w (sprintf_0d w v).
Proof.
  intros Hw Hv.
  destruct (sprintf_0d_shape w v Hw Hv) as [sg [pad [E [S [F [N [_ L]]]]]]].
  split; [rewrite E; exact L|].
  exists sg, pad. repeat split; auto.
  destruct S as [[-> _] | [-> _]]; auto.
Qed.

Lemma sprintf_timestamp_layout year mon day hour min sec :
  in_width 4 year -> in_width 2 mon -> in_width 2 day ->
  in_width 2 hour -> in_width 2 min -> in_width 2 sec ->
  timestamp_layout (sprintf_timestamp year mon day hour min sec)
  /\ List.length (sprintf_timestamp year mon day hour min sec) = 19%nat.
Proof.
  intros Hy Hmo Hd Hh Hmi Hs.
  pose proof (sprintf_0d_length 4 year ltac:(lia) Hy) as L1.
  pose proof (sprintf_0d_length 2 mon ltac:(lia) Hmo) as L2.
  pose proof (sprintf_0d_length 2 day ltac:(lia) Hd) as L3.
  pose proof (sprintf_0d_length 2 hour ltac:(lia) Hh) as L4.
  pose proof (sprintf_0d_length 2 min ltac:(lia) Hmi) as L5.
  pose proof (sprintf_0d_length 2 sec ltac:(lia) Hs) as L6.
  split.
  - exists (sprintf_0d 4 year), (sprintf_0d 2 mon), (sprintf_0d 2 day),
      (sprintf_0d 2 hour), (sprintf_0d 2 min), (sprintf_0d 2 sec).
    split; [reflexivity|].
    repeat split; try (apply sprintf_0d_zero_padded; auto; lia);
      apply sprintf_0d_zero_padded; auto.
  - unfold sprintf_timestamp.
    repeat (rewrite length_app; cbn [List.length]).
    rewrite L1, L2, L3, L4, L5, L6. reflexivity.
Qed.

(* Without a field width the digits end at the first other character. *)
Lemma take_digits_until ds rest :
  Forall (fun c => isdigit c = true) ds ->
  match rest with [] => True | c :: _ => isdigit c = false end ->
  take_digits None (ds ++ rest) = (ds, rest).
Proof.
  intros F R. induction F as [|c ds Hc _ IH].
  - cbn [app]. destruct rest as [|c r]; [reflexivity|].
    cbn [take_digits]. rewrite R. reflexivity.
  - cbn [app take_digits width_left width_pred]. rewrite Hc. cbn [andb].
    rewrite IH. reflexivity.
Qed.

Lemma scan_int_any_width_sprintf_0d w v rest :
  (2 <= w)%nat -> in_width w v ->
  match rest with [] => True | c :: _ => isdigit c = false end ->
  scan_int None (sprintf_0d w v ++ rest) = Some (v, rest).
Proof.
  intros Hw Hv R. unfold scan_int.
  rewrite (skip_space_sprintf_0d w v rest Hw Hv).
  destruct (sprintf_0d_shape w v Hw Hv) as [sg [pad [E [S [F [N [V L]]]]]]].
  rewrite E. destruct S as [[-> Hs] | [-> Hs]].
  - destruct pad as [|c r] eqn:Ep; [contradiction|].
    inversion F as [|? ? Hc _]; subst.
    destruct (isdigit_not_space_or_sign c Hc) as [_ [H1 H2]].
    cbn [app]. rewrite H1, H2. cbn [orb andb].
    change (c :: r ++ rest) with ((c :: r) ++ rest).
    rewrite (take_digits_until (c :: r) rest F R).
    rewrite V. f_equal. f_equal. lia.
  - cbn [app]. change (Ascii.eqb "-" "-") with true.
    cbn [orb andb width_left width_pred].
    rewrite (take_digits_until pad rest F R).
    destruct pad as [|c r]; [contradiction|].
    rewrite V. f_equal. f_equal. lia.
Qed.

(* The display leaves a text in the fixed layout as it is. *)
Lemma format_log_sprintf_timestamp year mon day hour min sec :
  in_width 4 year -> in_width 2 mon -> in_width 2 day ->
  in_width 2 hour -> in_width 2 min -> in_width 2 sec ->
  format_log (sprintf_timestamp year mon day hour min sec)
  = sprintf_timestamp year mon day hour min sec.
Proof.
  intros Hy Hmo Hd Hh Hmi Hs.
  unfold format_log.
  replace (sscanf_timestamp None None
             (sprintf_timestamp year mon day hour min sec))
    with (Some (year, mon, day, hour, min, sec)); [reflexivity|].
  symmetry. unfold sscanf_timestamp, sprintf_timestamp.
  rewrite scan_int_any_width_sprintf_0d by (auto; reflexivity).
  cbn [bind scan_char]. change (Ascii.eqb "/" "/") with true. cbn [bind].
  rewrite scan_int_any_width_sprintf_0d by (auto; reflexivity).
  cbn [bind scan_char]. change (Ascii.eqb "/" "/") with true. cbn [bind].
  rewrite scan_int_any_width_sprintf_0d by (auto; reflexivity).
  cbn [bind skip_space]. change (isspace " ") with true. cbv iota.
  rewrite skip_space_sprintf_0d by (auto; lia).
  rewrite scan_int_any_width_sprintf_0d by (auto; reflexivity).
  cbn [bind scan_char]. change (Ascii.eqb ":" ":") with true. cbn [bind].
  rewrite scan_int_any_width_sprintf_0d by (auto; reflexivity).
  cbn [bind scan_char]. change (Ascii.eqb ":" ":") with true. cbn [bind].
  rewrite <- (app_nil_r (sprintf_0d 2 sec)).
  rewrite scan_int_any_width_sprintf_0d by (auto; exact I).
  reflexivity.
Qed.

Lemma format_of_parsed year mon day hour min sec :
  format_tm (mk_tm sec min hour day (mon - 1) (year - 1900) 0 0 0)
  = sprintf_timestamp year mon day hour min sec.
Proof.
  unfold format_tm. cbn [tm_year tm_mon tm_mday tm_hour tm_min tm_sec].
  replace (year - 1900 + 1900) with year by lia.
  replace (mon - 1 + 1) with mon by lia. reflexivity.
Qed.

Lemma sprintf_0d_shape_any w v :
  exists sign pad,
    sprintf_0d w v = sign ++ pad
    /\ (sign = [] /\ 0 <= v \/ sign = ["-"%char] /\ v < 0)
    /\ Forall (fun c => isdigit c = true) pad /\ pad <> []
    /\ decimal_value pad = Z.abs v.
Proof.
  assert (P : forall k n, 0 <= n ->
            Forall (fun c => isdigit c = true) (pad_zero k (digits n))
            /\ pad_zero k (digits n) <> []
            /\ decimal_value (pad_zero k (digits n)) = n).
  { intros k n Hn. destruct (digits_spec n Hn) as [V [F N]].
    unfold pad_zero. repeat split.
    - apply Forall_app. split; [|exact F].
      apply Forall_forall. intros c Hc. apply repeat_spec in Hc. subst c.
      reflexivity.
    - intros C. apply app_eq_nil in C. destruct C as [_ C]. contradiction.
    - rewrite decimal_value_zeros. exact V. }
  unfold sprintf_0d. destruct (v <? 0) eqn:E.
  - apply Z.ltb_lt in E. destruct (P (w - 1)%nat (- v) ltac:(lia)) as [F [N V]].
    exists ["-"%char], (pad_zero (w - 1) (digits (- v))).
    repeat split; auto. rewrite V. lia.
  - apply Z.ltb_ge in E. destruct (P w v E) as [F [N V]].
    exists [], (pad_zero w (digits v)).
    repeat split; auto. rewrite V. lia.
Qed.

Lemma scan_int_sprintf_0d_any w v rest :
  match rest with [] => True | c :: _ => isdigit c = false end ->
  scan_int None (sprintf_0d w v ++ rest) = Some (v, rest)
  /\ skip_space (sprintf_0d w v ++ rest) = sprintf_0d w v ++ rest.
Proof.
  intros R.
  destruct (sprintf_0d_shape_any w v) as [sg [pad [E [S [F [N V]]]]]].
  rewrite E. unfold scan_int.
  destruct S as [[-> Hs] | [-> Hs]].
  - destruct pad as [|c r] eqn:Ep; [contradiction|].
    inversion F as [|? ? Hc _]; subst.
    destruct (isdigit_not_space_or_sign c Hc) as [H0 [H1 H2]].
    cbn [app skip_space]. rewrite H0, H1, H2. cbn [orb andb].
    split; [|reflexivity].
    change (c :: r ++ rest) with ((c :: r) ++ rest).
    rewrite (take_digits_until (c :: r) rest F R).
    rewrite V. f_equal. f_equal. lia.
  - cbn [app skip_space]. change (isspace "-") with false. cbv iota.
    split; [|reflexivity].
    change (Ascii.eqb "-" "-") with true.
    cbn [orb andb width_left width_pred].
    rewrite (take_digits_until pad rest F R).
    destruct pad as [|c r]; [contradiction|].
    rewrite V. f_equal. f_equal. lia.
Qed.

Lemma sscanf_any_sprintf_timestamp year mon day hour min sec :
  sscanf_timestamp None None (sprintf_timestamp year mon day hour min sec)
  = Some (year, mon, day, hour, min, sec).
Proof.
  unfold sscanf_timestamp, sprintf_timestamp.
  rewrite (proj1 (scan_int_sprintf_0d_any _ _ ("/"%char :: _) eq_refl)).
  cbn [bind scan_char]. change (Ascii.eqb "/" "/") with true. cbn [bind].
  rewrite (proj1 (scan_int_sprintf_0d_any _ _ ("/"%char :: _) eq_refl)).
  cbn [bind scan_char]. change (Ascii.eqb "/" "/") with true. cbn [bind].
  rewrite (proj1 (scan_int_sprintf_0d_any _ _ (" "%char :: _) eq_refl)).
  cbn [bind skip_space]. change (isspace " ") with true. cbv iota.
  rewrite (proj2 (scan_int_sprintf_0d_any _ _ (":"%char :: _) eq_refl)).
  rewrite (proj1 (scan_int_sprintf_0d_any _ _ (":"%char :: _) eq_refl)).
  cbn [bind scan_char]. change (Ascii.eqb ":" ":") with true. cbn [bind].
  rewrite (proj1 (scan_int_sprintf_0d_any _ _ (":"%char :: _) eq_refl)).
  cbn [bind scan_char]. change (Ascii.eqb ":" ":") with true. cbn [bind].
  rewrite <- (app_nil_r (sprintf_0d 2 sec)).
  rewrite (proj1 (scan_int_sprintf_0d_any _ _ [] I)).
  reflexivity.
Qed.




(** ** The clock's time as a text *)

Lemma tm_normal_in_width t :
  tm_normal t = true ->
  in_width 4 (tm_year t + 1900) /\ in_width 2 (tm_mon t + 1)
  /\ in_width 2 (tm_mday t) /\ in_width 2 (tm_hour t)
  /\ in_width 2 (tm_min t) /\ in_width 2 (tm_sec t).
Proof.
  unfold tm_normal, in_width. intros H.
  repeat (apply andb_true_iff in H; destruct H as [H ?]).
  repeat match goal with
         | H : (_ <=? _) = true |- _ => apply Z.leb_le in H
         end.
  change (10 ^ Z.of_nat (4 - 1)) with 1000.
  change (10 ^ Z.of_nat 4) with 10000.
  change (10 ^ Z.of_nat (2 - 1)) with 10.
  change (10 ^ Z.of_nat 2) with 100.
  lia.
Qed.

Lemma parse_strftime now :
  tm_normal now = true ->
  parseEditBufferToTm (strftime_timestamp now) = Some (clock_fields now).
Proof.
  intros H. destruct (tm_normal_in_width now H) as [Hy [Hmo [Hd [Hh [Hmi Hs]]]]].
  unfold parseEditBufferToTm, strftime_timestamp, format_tm.
  rewrite sscanf_sprintf_timestamp by assumption.
  unfold clock_fields. f_equal. f_equal; lia.
Qed.

Lemma strftime_length now :
  tm_normal now = true -> List.length (strftime_timestamp now) = 19%nat.
Proof.
  intros H. destruct (tm_normal_in_width now H) as [Hy [Hmo [Hd [Hh [Hmi Hs]]]]].
  unfold strftime_timestamp, format_tm.
  apply sprintf_timestamp_layout; assumption.
Qed.

(** ** Entering the editor and going through the fields *)

Lemma press_setTime_enters c g :
  state g = IDLE -> no_request g = true ->
  editing_at (strftime_timestamp (snd c)) (set_time_calls (effects g)) 0
             (press_setTime c g).
Proof.
  destruct g as [st inc nxt buf pos tsr dec d1 d2 d3 d4 dev eff].
  destruct c as [now_ms now].
  cbn [state]. intros -> H.
  destruct inc, nxt, tsr, dec; try discriminate H.
  unfold editing_at, press_setTime. cbn [fst snd]. eval_model.
  repeat split; reflexivity.
Qed.

Lemma press_setTime_advances buf calls i c g :
  (i < 13)%nat -> editing_at buf calls i g ->
  editing_at buf calls (S i) (press_setTime c g).
Proof.
  destruct g as [st inc nxt b pos tsr dec d1 d2 d3 d4 dev eff].
  destruct c as [now_ms now].
  unfold editing_at. cbn [state currentEditPos editBuffer effects].
  intros Hi [-> [H [-> [-> <-]]]].
  destruct inc, nxt, tsr, dec; try discriminate H.
  unfold press_setTime. cbn [fst snd].
  do 13 (destruct i as [|i];
         [eval_model; repeat split; reflexivity|]).
  lia.
Qed.

Lemma press_setTime_commits buf calls t c g :
  editing_at buf calls 13 g -> parseEditBufferToTm buf = Some t ->
  state (press_setTime c g) = IDLE
  /\ set_time_calls (effects (press_setTime c g)) = t :: calls.
Proof.
  destruct g as [st inc nxt b pos tsr dec d1 d2 d3 d4 dev eff].
  destruct c as [now_ms now].
  unfold editing_at. cbn [state currentEditPos editBuffer effects].
  intros [-> [H [-> [-> <-]]]] Hp.
  destruct inc, nxt, tsr, dec; try discriminate H.
  unfold press_setTime. cbn [fst snd]. eval_model.
  change (nth 13 editable_positions 0 =? 18) with true. eval_model.
  rewrite Hp. eval_model. split; reflexivity.
Qed.

Lemma presses_setTime_advance buf calls cs : forall i g,
  (i + List.length cs <= 13)%nat -> editing_at buf calls i g ->
  editing_at buf calls (i + List.length cs) (presses_setTime cs g).
Proof.
  induction cs as [|c cs IH]; intros i g Hi Hg.
  - cbn. rewrite Nat.add_0_r. exact Hg.
  - cbn [List.length] in *. unfold presses_setTime. cbn [fold_left].
    replace (i + S (List.length cs))%nat with (S i + List.length cs)%nat by lia.
    apply IH; [lia|]. apply press_setTime_advances; [lia | exact Hg].
Qed.

Lemma commit_calls_set_time now g t :
  state g = SET_TIME -> nextPositionPressed g = true ->
  currentEditPos g = 18 ->
  incrementPressed g = false -> decrementPressed g = false ->
  parseEditBufferToTm (editBuffer g) = Some t ->
  state (loop_iteration now g) = IDLE
  /\ set_time_calls (effects (loop_iteration now g))
     = t :: set_time_calls (effects g).
Proof.
  destruct g as [st inc nxt buf pos tsr dec d1 d2 d3 d4 dev eff].
  cbn [state nextPositionPressed currentEditPos incrementPressed
       decrementPressed editBuffer effects].
  intros -> -> -> -> -> Hp.
  destruct tsr; eval_model; rewrite Hp; eval_model; split; reflexivity.
Qed.

(** C3, as the program has it.  From IDLE with nothing waiting, a press of
    the set-time button and the iteration that serves it open the editor
    with the cursor at position 0 on the text of the clock's time.  The
    next 13 presses move the cursor through the editable positions, in
    their order, to position 18, the mode staying SET_TIME and [set_time]
    not being called; the 14th press finds the cursor at 18 and commits:
    the mode is IDLE again and [set_time] has been called once, with the
    time the buffer holds.  A commit always passes the time parsed from the
    buffer, whatever edits made it. *)
Theorem enter_then_fourteen_presses
        (g : Globals) (c0 : Z * tm) (cs : list (Z * tm)) (c14 : Z * tm) :
  state g = IDLE -> no_request g = true ->
  tm_normal (snd c0) = true -> List.length cs = 13%nat ->
  let g1 := press_setTime c0 g in
  let g14 := presses_setTime cs g1 in
  let g15 := press_setTime c14 g14 in
  (state g1 = SET_TIME /\ currentEditPos g1 = 0
   /\ editBuffer g1 = strftime_timestamp (snd c0))
  /\ (forall k, (k <= 13)%nat ->
        let gk := presses_setTime (firstn k cs) g1 in
        state gk = SET_TIME
        /\ currentEditPos gk = nth k editable_positions 0
        /\ set_time_calls (effects gk) = set_time_calls (effects g))
  /\ currentEditPos g14 = 18
  /\ state g15 = IDLE
  /\ set_time_calls (effects g15)
     = clock_fields (snd c0) :: set_time_calls (effects g)
  /\ (forall now g' t,
        state g' = SET_TIME -> nextPositionPressed g' = true ->
        currentEditPos g' = 18 ->
        incrementPressed g' = false -> decrementPressed g' = false ->
        parseEditBufferToTm (editBuffer g') = Some t ->
        state (loop_iteration now g') = IDLE
        /\ set_time_calls (effects (loop_iteration now g'))
           = t :: set_time_calls (effects g')).
Proof.
  intros Hs Hr Hn Hl. cbv zeta.
  pose proof (press_setTime_enters c0 g Hs Hr) as E1.
  assert (Ek : forall k, (k <= 13)%nat ->
             editing_at (strftime_timestamp (snd c0))
               (set_time_calls (effects g)) k
               (presses_setTime (firstn k cs) (press_setTime c0 g))).
  { intros k Hk.
    pose proof (presses_setTime_advance _ _ (firstn k cs) 0 _
                  ltac:(rewrite length_firstn; lia) E1) as H.
    rewrite length_firstn, Hl, Nat.min_l in H by lia. exact H. }
  pose proof (Ek 13%nat (le_n _)) as E14.
  assert (F : firstn 13 cs = cs) by (rewrite <- Hl; apply firstn_all).
  rewrite F in E14.
  split; [|split; [|split; [|split; [|split]]]].
  - destruct E1 as [A [_ [B [C _]]]]. auto.
  - intros k Hk. destruct (Ek k Hk) as [A [_ [B [_ C]]]]. auto.
  - destruct E14 as [_ [_ [B _]]]. exact B.
  - apply (press_setTime_commits _ _ _ c14 _ E14 (parse_strftime _ Hn)).
  - apply (press_setTime_commits _ _ _ c14 _ E14 (parse_strftime _ Hn)).
  - intros now g' t. apply commit_calls_set_time.
Qed.

Lemma enter_then_fourteen_presses_witness :
  let cs := map (fun k => (300 * Z.of_nat k, noon)) (seq 1 13) in
  state (startup blank_eeprom) = IDLE
  /\ no_request (startup blank_eeprom) = true
  /\ tm_normal noon = true
  /\ List.length cs = 13%nat
  /\ state (press_setTime (4200, noon)
              (presses_setTime cs
                 (press_setTime (0, noon) (startup blank_eeprom)))) = IDLE.
Proof.
  cbv zeta.
  split; [reflexivity|]. split; [reflexivity|].
  split; [reflexivity|]. split; [reflexivity|].
  apply (enter_then_fourteen_presses (startup blank_eeprom) (0, noon)
           (map (fun k => (300 * Z.of_nat k, noon)) (seq 1 13)) (4200, noon));
    reflexivity.
Defined.

(** C3 as stated fails: after the press that opens the editor, the 14th
    further press commits, the 15th opens the editor again, and after the
    18th the mode is SET_TIME with the cursor at position 3, not IDLE. *)
Lemma eighteen_presses_counterexample :
  let g1 := press_setTime (0, noon) (startup blank_eeprom) in
  let after n :=
    presses_setTime (map (fun k => (300 * Z.of_nat k, noon)) (seq 1 n)) g1 in
  state (after 18%nat) = SET_TIME
  /\ currentEditPos (after 18%nat) = 3
  /\ state (after 18%nat) <> IDLE
  /\ currentEditPos (after 13%nat) = 18
  /\ state (after 14%nat) = IDLE.
Proof.
  cbv zeta. repeat split; try (vm_compute; reflexivity).
  vm_compute. discriminate.
Qed.

(** ** The EEPROM *)

Lemma ep_address_bytes a :
  0 <= a < 65536 ->
  code (char_of (Z.land (Z.shiftr a 8) 255)) * 256
  + code (char_of (Z.land a 255)) = a.
Proof.
  intros H. change 255 with (Z.ones 8).
  rewrite !Z.land_ones, Z.shiftr_div_pow2 by lia.
  change (2 ^ 8) with 256.
  assert (0 <= a / 256 < 256).
  { split; [apply Z.div_pos; lia | apply Z.div_lt_upper_bound; lia]. }
  rewrite (Z.mod_small (a / 256)) by lia.
  pose proof (Z.mod_pos_bound a 256).
  rewrite !code_char_of by lia.
  pose proof (Z.div_mod a 256). lia.
Qed.

Lemma store_bytes_spec data : forall m a x,
  store_bytes m a data x
  = if (a <=? x) && (x <? a + Z.of_nat (List.length data))
    then nth (Z.to_nat (x - a)) data NUL else m x.
Proof.
  induction data as [|c r IH]; intros m a x.
  - cbn [store_bytes List.length].
    destruct ((a <=? x) && (x <? a + Z.of_nat 0)) eqn:E; [|reflexivity].
    apply andb_true_iff in E. destruct E as [E1 E2].
    apply Z.leb_le in E1. apply Z.ltb_lt in E2. lia.
  - cbn [store_bytes]. rewrite IH. cbn [List.length].
    rewrite Nat2Z.inj_succ.
    destruct (Z.eqb_spec x a) as [-> | Hne].
    + replace (a + 1 <=? a) with false by (symmetry; apply Z.leb_gt; lia).
      replace (a <=? a) with true by (symmetry; apply Z.leb_le; lia).
      replace (a <? a + Z.succ (Z.of_nat (List.length r))) with true
        by (symmetry; apply Z.ltb_lt; lia).
      cbn [andb]. rewrite Z.sub_diag. reflexivity.
    + destruct (Z.leb_spec (a + 1) x) as [H1 | H1].
      * replace (a <=? x) with true by (symmetry; apply Z.leb_le; lia).
        replace (a + 1 + Z.of_nat (List.length r))
          with (a + Z.succ (Z.of_nat (List.length r))) by lia.
        cbn [andb].
        destruct (x <? a + Z.succ (Z.of_nat (List.length r))); [|reflexivity].
        replace (Z.to_nat (x - a)) with (S (Z.to_nat (x - (a + 1)))) by lia.
        reflexivity.
      * replace (a <=? x) with false by (symmetry; apply Z.leb_gt; lia).
        reflexivity.
Qed.

Lemma load_store_same m a data :
  load_bytes (store_bytes m a data) a (List.length data) = data.
Proof.
  unfold load_bytes.
  apply (nth_ext _ _ NUL NUL).
  - rewrite length_map, length_seq. reflexivity.
  - intros i Hi. rewrite length_map, length_seq in Hi.
    rewrite (nth_indep _ NUL (store_bytes m a data (a + Z.of_nat 0)))
      by (rewrite length_map, length_seq; exact Hi).
    rewrite (map_nth (fun i => store_bytes m a data (a + Z.of_nat i))).
    rewrite seq_nth by exact Hi. cbn [Nat.add].
    rewrite store_bytes_spec.
    destruct (Z.leb_spec a (a + Z.of_nat i)); [|lia].
    destruct (Z.ltb_spec (a + Z.of_nat i) (a + Z.of_nat (List.length data)));
      [|lia].
    cbn [andb]. f_equal. lia.
Qed.

Lemma load_store_other m a data b n :
  b + Z.of_nat n <= a \/ a + Z.of_nat (List.length data) <= b ->
  load_bytes (store_bytes m a data) b n = load_bytes m b n.
Proof.
  intros H. unfold load_bytes. apply map_ext_in. intros i Hi.
  apply in_seq in Hi. rewrite store_bytes_spec.
  destruct (Z.leb_spec a (b + Z.of_nat i)); [|reflexivity].
  destruct (Z.ltb_spec (b + Z.of_nat i) (a + Z.of_nat (List.length data)));
    [lia | reflexivity].
Qed.

Lemma load_bytes_length m a n : List.length (load_bytes m a n) = n.
Proof. unfold load_bytes. rewrite length_map, length_seq. reflexivity. Qed.

Lemma ReadEEPROM_spec a size dev :
  0 <= a < 65536 ->
  fst (ReadEEPROM EEPROM_ADDR a size dev) = load_bytes (mem dev) a size
  /\ mem (snd (ReadEEPROM EEPROM_ADDR a size dev)) = mem dev.
Proof.
  intros H. unfold ReadEEPROM, i2c_write, i2c_read.
  rewrite Z.eqb_refl. cbn [store_bytes List.length mem pointer fst snd].
  rewrite (ep_address_bytes a H), Z.add_0_r. split; reflexivity.
Qed.

Lemma WriteEEPROM_spec a data dev :
  0 <= a < 65536 -> List.length data = 20%nat ->
  mem (WriteEEPROM EEPROM_ADDR a data 20 dev) = store_bytes (mem dev) a data.
Proof.
  intros H L. unfold WriteEEPROM, i2c_write. rewrite Z.eqb_refl.
  rewrite (ep_address_bytes a H). cbn [mem].
  rewrite <- L, firstn_all. reflexivity.
Qed.

Lemma poke_length i c buf : List.length (poke i c buf) = List.length buf.
Proof.
  revert i. induction buf as [|x r IH]; intros i; [reflexivity|].
  destruct i; cbn [poke List.length]; [reflexivity|]. rewrite IH. reflexivity.
Qed.

Lemma poke_poke i c buf : poke i c (poke i c buf) = poke i c buf.
Proof.
  revert i. induction buf as [|x r IH]; intros i; [reflexivity|].
  destruct i; cbn [poke]; [reflexivity|]. rewrite IH. reflexivity.
Qed.

Lemma c_str_before_NUL s r :
  Forall (fun c => Ascii.eqb c NUL = false) s -> c_str (s ++ NUL :: r) = s.
Proof.
  induction 1 as [|c s Hc _ IH]; [reflexivity|].
  cbn [app c_str]. rewrite Hc, IH. reflexivity.
Qed.

Lemma isdigit_not_NUL c : isdigit c = true -> Ascii.eqb c NUL = false.
Proof.
  intros H. destruct (Ascii.eqb_spec c NUL) as [-> | _]; [|reflexivity].
  discriminate H.
Qed.

Lemma sprintf_0d_no_NUL w v :
  (2 <= w)%nat -> in_width w v ->
  Forall (fun c => Ascii.eqb c NUL = false) (sprintf_0d w v).
Proof.
  intros Hw Hv.
  destruct (sprintf_0d_shape w v Hw Hv) as [sg [pad [E [S [F _]]]]].
  rewrite E. apply Forall_app. split.
  - destruct S as [[-> _] | [-> _]]; repeat constructor.
  - eapply Forall_impl; [|exact F]. intros c. apply isdigit_not_NUL.
Qed.

Lemma strftime_no_NUL now :
  tm_normal now = true ->
  Forall (fun c => Ascii.eqb c NUL = false) (strftime_timestamp now).
Proof.
  intros H. destruct (tm_normal_in_width now H) as [Hy [Hmo [Hd [Hh [Hmi Hs]]]]].
  unfold strftime_timestamp, format_tm, sprintf_timestamp.
  repeat (apply Forall_app; split; [apply sprintf_0d_no_NUL; auto|];
          constructor; [reflexivity|]).
  apply sprintf_0d_no_NUL; auto.
Qed.

(* The 20 bytes that [storeCurrentTime] writes for a time of the clock. *)
Lemma newLog_bytes now :
  tm_normal now = true ->
  poke 19 NUL (to_buffer 20 (strftime_timestamp now))
  = strftime_timestamp now ++ [NUL].
Proof.
  intros H. pose proof (strftime_length now H) as L.
  unfold to_buffer.
  assert (E : firstn 20 (strftime_timestamp now ++ repeat NUL 20)
              = strftime_timestamp now ++ [NUL]).
  { rewrite firstn_app, L. cbn [Nat.sub].
    rewrite firstn_all2 by lia. reflexivity. }
  rewrite E.
  remember (strftime_timestamp now) as s. clear Heqs H E.
  do 19 (destruct s as [|? s]; [discriminate L|]).
  destruct s; [reflexivity | discriminate L].
Qed.

(** ** The log store *)

Lemma readBoth_spec dev :
  readBoth dev
  = (c_str (poke 19 NUL (load_bytes (mem dev) 0 20)),
     c_str (poke 19 NUL (load_bytes (mem dev) 32 20))).
Proof.
  unfold readBoth, read_logs.
  change (Z.to_nat TIME_STR_SIZE) with 20%nat.
  change (Z.to_nat (TIME_STR_SIZE - 1)) with 19%nat.
  unfold LOG1_ADDR, LOG2_ADDR.
  destruct (ReadEEPROM_spec 0 20 dev ltac:(lia)) as [A1 A2].
  destruct (ReadEEPROM EEPROM_ADDR 0 20 dev) as [log1 dev1].
  cbn [fst snd] in A1, A2.
  destruct (ReadEEPROM_spec 32 20 dev1 ltac:(lia)) as [B1 B2].
  destruct (ReadEEPROM EEPROM_ADDR 32 20 dev1) as [log2 dev2].
  cbn [fst snd] in B1, B2. cbn [fst]. subst log1 log2. rewrite A2.
  reflexivity.
Qed.

Lemma storeCurrentTime_mem now dev :
  tm_normal now = true ->
  mem (storeCurrentTime now dev)
  = let oldLog := poke 19 NUL (load_bytes (mem dev) 0 20) in
    store_bytes
      (if negb (Ascii.eqb (nth 0 oldLog NUL) NUL)
       then store_bytes (mem dev) 32 oldLog else mem dev)
      0 (strftime_timestamp now ++ [NUL]).
Proof.
  intros H. unfold storeCurrentTime.
  change (Z.to_nat TIME_STR_SIZE) with 20%nat.
  change (Z.to_nat (TIME_STR_SIZE - 1)) with 19%nat.
  unfold LOG1_ADDR, LOG2_ADDR.
  destruct (ReadEEPROM_spec 0 20 dev ltac:(lia)) as [A1 A2].
  destruct (ReadEEPROM EEPROM_ADDR 0 20 dev) as [oldLog dev1].
  cbn [fst snd] in A1, A2. subst oldLog. cbv zeta.
  rewrite (newLog_bytes now H).
  assert (L : List.length (strftime_timestamp now ++ [NUL]) = 20%nat).
  { rewrite length_app, (strftime_length now H). reflexivity. }
  rewrite WriteEEPROM_spec by (auto; lia).
  destruct (negb (Ascii.eqb (nth 0 (poke 19 NUL (load_bytes (mem dev) 0 20)) NUL) NUL)).
  - rewrite WriteEEPROM_spec, A2;
      [reflexivity | lia | rewrite poke_length; apply load_bytes_length].
  - rewrite A2. reflexivity.
Qed.

(* One call: the new time is the latest record, and the record that was
   the latest, if it was not empty, is the previous one. *)
Lemma storeCurrentTime_shifts now dev :
  tm_normal now = true ->
  readBoth (storeCurrentTime now dev)
  = (strftime_timestamp now,
     match fst (readBoth dev) with
     | [] => snd (readBoth dev)
     | latest => latest
     end).
Proof.
  intros H. rewrite (readBoth_spec (storeCurrentTime now dev)).
  rewrite (readBoth_spec dev). cbn [fst snd].
  rewrite (storeCurrentTime_mem now dev H). cbv zeta.
  set (oldLog := poke 19 NUL (load_bytes (mem dev) 0 20)).
  assert (Lo : List.length oldLog = 20%nat).
  { unfold oldLog. rewrite poke_length. apply load_bytes_length. }
  assert (Ln : List.length (strftime_timestamp now ++ [NUL]) = 20%nat).
  { rewrite length_app, (strftime_length now H). reflexivity. }
  f_equal.
  - rewrite <- Ln. rewrite load_store_same.
    rewrite <- (newLog_bytes now H), poke_poke, (newLog_bytes now H).
    apply c_str_before_NUL. apply strftime_no_NUL. exact H.
  - rewrite load_store_other by (rewrite Ln; lia).
    destruct oldLog as [|c r] eqn:E; [discriminate Lo|].
    cbn [nth c_str].
    destruct (Ascii.eqb c NUL) eqn:Ec; cbn [negb].
    + reflexivity.
    + rewrite <- Lo. rewrite load_store_same.
      rewrite <- E. unfold oldLog. rewrite poke_poke. fold oldLog.
      rewrite E. cbn [c_str]. rewrite Ec. reflexivity.
Qed.

(** C1.  [storeCurrentTime] reads the latest record, copies it, when it is
    not empty, over the previous record, and then writes the text of the
    clock's time as the latest record: after a call the latest record is
    the new text and the previous one is the record that was the latest,
    or the old previous one when the latest was empty.  So after two calls,
    at the times [t1] and then [t2], on any contents of the EEPROM, the
    latest record is the text of [t2] and the previous one that of [t1]. *)
Theorem record_twice_then_readBoth (dev : I2C) (t1 t2 : tm) :
  tm_normal t1 = true -> tm_normal t2 = true ->
  readBoth (storeCurrentTime t1 dev)
  = (strftime_timestamp t1,
     match fst (readBoth dev) with
     | [] => snd (readBoth dev)
     | latest => latest
     end)
  /\ readBoth (storeCurrentTime t2 (storeCurrentTime t1 dev))
     = (strftime_timestamp t2, strftime_timestamp t1).
Proof.
  intros H1 H2. split; [apply storeCurrentTime_shifts; exact H1|].
  rewrite (storeCurrentTime_shifts t2 _ H2).
  rewrite (storeCurrentTime_shifts t1 dev H1). cbn [fst].
  pose proof (strftime_length t1 H1) as L.
  destruct (strftime_timestamp t1); [discriminate L | reflexivity].
Qed.

Lemma record_twice_then_readBoth_witness :
  tm_normal (mk_tm 0 0 0 1 0 125 0 0 0) = true
  /\ tm_normal (mk_tm 0 30 12 15 5 125 0 0 0) = true
  /\ readBoth (storeCurrentTime (mk_tm 0 30 12 15 5 125 0 0 0)
                 (storeCurrentTime (mk_tm 0 0 0 1 0 125 0 0 0) blank_eeprom))
     = (str "2025/06/15 12:30:00", str "2025/01/01 00:00:00").
Proof.
  split; [reflexivity|]. split; [reflexivity|].
  apply (record_twice_then_readBoth blank_eeprom
           (mk_tm 0 0 0 1 0 125 0 0 0) (mk_tm 0 30 12 15 5 125 0 0 0));
    reflexivity.
Defined.

(** ** Debouncing *)

Lemma Button_eqb_eq a b : Button_eqb a b = true <-> a = b.
Proof. destruct a, b; simpl; split; congruence. Qed.

Lemma fall_debounce_other b b' now_ms g :
  b <> b' -> debounce_of b (fall b' now_ms g) = debounce_of b g.
Proof.
  destruct g as [st inc nxt buf pos tsr dec [f1 t1] [f2 t2] [f3 t3] [f4 t4] dev eff].
  intros H. destruct b, b'; try contradiction;
    destruct st, f1, f2, f3, f4; reflexivity.
Qed.

Lemma fall_debounce_armed b now_ms g :
  debouncing (debounce_of b g) = false ->
  debounce_of b (fall b now_ms g)
  = mk_debounce true (Some (now_ms + DEBOUNCE_TIME_MS)).
Proof.
  destruct g as [st inc nxt buf pos tsr dec [f1 t1] [f2 t2] [f3 t3] [f4 t4] dev eff].
  destruct b; cbn [debounce_of debounce_user_button debounce_replayButton
                   debounce_setTimeButton debounce_incrementButton debouncing];
    intros ->; destruct st; reflexivity.
Qed.

Lemma loop_iteration_debounce b now g :
  debounce_of b (loop_iteration now g) = debounce_of b g.
Proof.
  destruct g as [st inc nxt buf pos tsr dec d1 d2 d3 d4 dev eff].
  destruct b, st, inc, nxt, tsr, dec; eval_model; try reflexivity;
    rewrite ?first_editable_0;
    match goal with
    | |- context [?p =? 18] => destruct (p =? 18) eqn:?
    end; eval_model; split_parse; reflexivity.
Qed.

Lemma fire_debounce tf now_ms b b' g :
  debounce_of b (fire tf now_ms b' g)
  = if Button_eqb b b' && is_due tf now_ms (debounce_of b g)
    then mk_debounce false None else debounce_of b g.
Proof.
  destruct g as [st inc nxt buf pos tsr dec d1 d2 d3 d4 dev eff].
  unfold fire.
  destruct b, b'; cbn [Button_eqb andb debounce_of debounce_user_button
                       debounce_replayButton debounce_setTimeButton
                       debounce_incrementButton];
    match goal with
    | |- context [is_due tf now_ms ?d] => destruct (is_due tf now_ms d)
    end; reflexivity.
Qed.

Lemma fire_due_debounce tf now_ms b g :
  debounce_of b (fire_due tf now_ms g)
  = if is_due tf now_ms (debounce_of b g)
    then mk_debounce false None else debounce_of b g.
Proof.
  unfold fire_due. rewrite !fire_debounce.
  destruct b; cbn [Button_eqb andb];
    destruct (is_due tf now_ms _); reflexivity.
Qed.

Lemma presses_app tf b es1 : forall es2 g,
  presses tf b (es1 ++ es2) g
  = (presses tf b es1 g + presses tf b es2 (timed_run tf es1 g))%nat.
Proof.
  induction es1 as [|e es1 IH]; intros es2 g; [reflexivity|].
  cbn [app presses timed_run fold_left]. rewrite IH.
  unfold timed_run. lia.
Qed.

(* While other things happen, the cooldown of [b] stays armed until its
   timeout is served, and then stays idle; nothing is a press of [b]. *)
Lemma cooldown_through tf b t0 t1 mid : forall tl g,
  between b tl t1 mid = true ->
  debounce_of b g = mk_debounce true (Some (t0 + DEBOUNCE_TIME_MS))
  \/ debounce_of b g = mk_debounce false None ->
  presses tf b mid g = 0%nat
  /\ (debounce_of b (timed_run tf mid g)
        = mk_debounce true (Some (t0 + DEBOUNCE_TIME_MS))
      \/ debounce_of b (timed_run tf mid g) = mk_debounce false None)
  /\ (t1 < t0 + DEBOUNCE_TIME_MS ->
      debounce_of b g = mk_debounce true (Some (t0 + DEBOUNCE_TIME_MS)) ->
      debounce_of b (timed_run tf mid g)
      = mk_debounce true (Some (t0 + DEBOUNCE_TIME_MS))).
Proof.
  induction mid as [|[t h] mid IH]; intros tl g Hb Hd.
  - cbn. auto.
  - cbn [between fst snd] in Hb.
    apply andb_true_iff in Hb. destruct Hb as [Hb Hb3].
    apply andb_true_iff in Hb. destruct Hb as [Hb Hb2].
    apply andb_true_iff in Hb. destruct Hb as [Hb0 Hb1].
    apply Z.leb_le in Hb0. apply Z.leb_le in Hb1.
    assert (S1 : debounce_of b (timed_step tf (t, h) g)
                 = debounce_of b (fire_due tf t g)).
    { unfold timed_step. cbn [fst snd]. destruct h as [b' | now].
      - apply fall_debounce_other. intros ->.
        apply negb_true_iff in Hb2.
        assert (Button_eqb b' b' = true) by (apply Button_eqb_eq; reflexivity).
        congruence.
      - apply loop_iteration_debounce. }
    assert (P0 : logical_press tf b (t, h) g = false).
    { unfold logical_press. cbn [fst snd]. destruct h as [b' | now]; [|reflexivity].
      apply negb_true_iff in Hb2. rewrite Hb2. reflexivity. }
    assert (S2 : debounce_of b (timed_step tf (t, h) g)
                 = mk_debounce true (Some (t0 + DEBOUNCE_TIME_MS))
                 \/ debounce_of b (timed_step tf (t, h) g) = mk_debounce false None).
    { rewrite S1, fire_due_debounce.
      destruct (is_due tf t (debounce_of b g)); auto. }
    destruct (IH t (timed_step tf (t, h) g) Hb3 S2) as [I1 [I2 I3]].
    cbn [presses timed_run fold_left]. rewrite P0.
    split; [exact I1|]. split; [exact I2|].
    intros Hlt Ha. apply I3; [exact Hlt|].
    rewrite S1, fire_due_debounce, Ha. unfold is_due. cbn [due].
    destruct tf.
    + destruct (Z.leb_spec (t0 + DEBOUNCE_TIME_MS) t); [lia | reflexivity].
    + destruct (Z.ltb_spec (t0 + DEBOUNCE_TIME_MS) t); [lia | reflexivity].
Qed.

(** C6. For each button and either order of serving a timeout and an edge
    that fall on the same instant: when an edge at [t0] is taken as a
    logical press, a second edge of the button at [t1], whatever happens to
    the other buttons and the loop in between, is suppressed if it comes
    less than 200 ms after the first, so that the two edges make exactly
    one logical press, and is taken if it comes more than 200 ms after it,
    so that they make two. *)
Theorem debounce_one_press_per_cooldown
        (timer_first : bool) (b : Button) (g : Globals) (t0 t1 : Z)
        (mid : list (Z * Happening)) :
  logical_press timer_first b (t0, Edge b) g = true ->
  t0 <= t1 ->
  between b t0 t1 mid = true ->
  let edges := (t0, Edge b) :: mid ++ [(t1, Edge b)] in
  (t1 - t0 < DEBOUNCE_TIME_MS -> presses timer_first b edges g = 1%nat)
  /\ (DEBOUNCE_TIME_MS < t1 - t0 -> presses timer_first b edges g = 2%nat).
Proof.
  intros H0 Hle Hb. cbv zeta.
  cbn [presses]. rewrite H0, presses_app.
  set (g1 := timed_step timer_first (t0, Edge b) g).
  assert (A : debounce_of b g1 = mk_debounce true (Some (t0 + DEBOUNCE_TIME_MS))).
  { unfold g1, timed_step. cbn [fst snd]. apply fall_debounce_armed.
    unfold logical_press in H0. cbn [fst snd] in H0.
    apply andb_true_iff in H0. destruct H0 as [_ H0].
    apply negb_true_iff in H0. exact H0. }
  destruct (cooldown_through timer_first b t0 t1 mid t0 g1 Hb (or_introl A))
    as [P [D1 D2]].
  rewrite P. cbn [presses]. unfold logical_press. cbn [fst snd].
  replace (Button_eqb b b) with true
    by (symmetry; apply Button_eqb_eq; reflexivity).
  rewrite fire_due_debounce. cbn [andb]. split; intros Ht.
  - rewrite (D2 ltac:(lia) A). unfold is_due. cbn [due].
    destruct timer_first.
    + destruct (Z.leb_spec (t0 + DEBOUNCE_TIME_MS) t1); [lia | reflexivity].
    + destruct (Z.ltb_spec (t0 + DEBOUNCE_TIME_MS) t1); [lia | reflexivity].
  - destruct D1 as [-> | ->].
    + unfold is_due. cbn [due]. destruct timer_first.
      * destruct (Z.leb_spec (t0 + DEBOUNCE_TIME_MS) t1); [reflexivity | lia].
      * destruct (Z.ltb_spec (t0 + DEBOUNCE_TIME_MS) t1); [reflexivity | lia].
    + reflexivity.
Qed.

Lemma debounce_one_press_per_cooldown_witness :
  let mid := [(50, Tick noon); (120, Edge setTimeButton); (150, Tick noon)] in
  logical_press true userButton (0, Edge userButton) (startup blank_eeprom) = true
  /\ 0 <= 199
  /\ between userButton 0 199 mid = true
  /\ presses true userButton
       ((0, Edge userButton) :: mid ++ [(199, Edge userButton)])
       (startup blank_eeprom) = 1%nat.
Proof.
  cbv zeta.
  split; [reflexivity|]. split; [lia|]. split; [reflexivity|].
  apply (debounce_one_press_per_cooldown true userButton (startup blank_eeprom)
           0 199 [(50, Tick noon); (120, Edge setTimeButton); (150, Tick noon)]);
    [reflexivity | lia | reflexivity | reflexivity].
Defined.

(** * Further properties of the code *)

(** ** [my_strcmp] and the names of the fields *)

Lemma code_inj c1 c2 : code c1 = code c2 -> c1 = c2.
Proof.
  unfold code. intros H. apply N2Z.inj in H.
  rewrite <- (ascii_N_embedding c1), <- (ascii_N_embedding c2), H.
  reflexivity.
Qed.

Lemma code_NUL c : code c = 0 -> c = NUL.
Proof. intros H. apply code_inj. rewrite H. reflexivity. Qed.

(** X1. [my_strcmp] returns 0 exactly when the two strings are equal, and
    swapping the arguments negates the result. *)
Theorem my_strcmp_zero_iff_equal (s1 s2 : cstring) :
  no_NUL s1 -> no_NUL s2 ->
  (my_strcmp s1 s2 = 0 <-> s1 = s2)
  /\ my_strcmp s2 s1 = - my_strcmp s1 s2.
Proof.
  unfold no_NUL. intros H1. revert s2.
  induction H1 as [|c1 r1 Hc1 _ IH]; intros s2 H2.
  - destruct H2 as [|c2 r2 Hc2 _]; cbn [my_strcmp].
    + split; [tauto | reflexivity].
    + split; [|lia]. split; [|discriminate].
      intros E. assert (c2 = NUL) by (apply code_NUL; lia). subst c2.
      discriminate Hc2.
  - destruct H2 as [|c2 r2 Hc2 H2]; cbn [my_strcmp].
    + split; [|lia]. split; [|discriminate].
      intros E. assert (c1 = NUL) by (apply code_NUL; lia). subst c1.
      discriminate Hc1.
    + rewrite (Ascii.eqb_sym c2 c1).
      destruct (Ascii.eqb_spec c1 c2) as [-> | Hne].
      * destruct (IH r2 H2) as [I1 I2]. split; [|exact I2].
        split; [intros E; f_equal; apply I1; exact E|].
        intros E. injection E as E. apply I1. exact E.
      * split; [|lia]. split.
        -- intros E. exfalso. apply Hne. apply code_inj. lia.
        -- intros E. injection E as E _. contradiction.
Qed.

Lemma my_strcmp_zero_iff_equal_witness :
  no_NUL (str "Month") /\ no_NUL (str "Minute")
  /\ my_strcmp (str "Minute") (str "Month")
     = - my_strcmp (str "Month") (str "Minute").
Proof.
  assert (A : no_NUL (str "Month")) by (repeat constructor).
  assert (B : no_NUL (str "Minute")) by (repeat constructor).
  split; [exact A|]. split; [exact B|].
  apply (my_strcmp_zero_iff_equal (str "Month") (str "Minute") A B).
Defined.

Lemma getCurrentFieldName_Unknown pos :
  getCurrentFieldName pos = str "Unknown" <-> isEditablePosition pos = false.
Proof.
  destruct (Z_lt_ge_dec pos 0) as [Hneg | Hnn].
  - split; intros _.
    + unfold isEditablePosition.
      replace (pos <? 0) with true by (symmetry; apply Z.ltb_lt; lia).
      reflexivity.
    + unfold getCurrentFieldName.
      replace (0 <=? pos) with false by (symmetry; apply Z.leb_gt; lia).
      replace (5 <=? pos) with false by (symmetry; apply Z.leb_gt; lia).
      replace (8 <=? pos) with false by (symmetry; apply Z.leb_gt; lia).
      replace (11 <=? pos) with false by (symmetry; apply Z.leb_gt; lia).
      replace (14 <=? pos) with false by (symmetry; apply Z.leb_gt; lia).
      replace (17 <=? pos) with false by (symmetry; apply Z.leb_gt; lia).
      reflexivity.
  - destruct (Z_lt_ge_dec 18 pos) as [Hbig | Hsmall].
    + split; intros _.
      * unfold isEditablePosition, TIME_STR_SIZE.
        replace (pos >=? 20 - 1) with true
          by (symmetry; rewrite Z.geb_leb; apply Z.leb_le; lia).
        rewrite orb_true_r. reflexivity.
      * unfold getCurrentFieldName.
        replace (pos <=? 3) with false by (symmetry; apply Z.leb_gt; lia).
        replace (pos <=? 6) with false by (symmetry; apply Z.leb_gt; lia).
        replace (pos <=? 9) with false by (symmetry; apply Z.leb_gt; lia).
        replace (pos <=? 12) with false by (symmetry; apply Z.leb_gt; lia).
        replace (pos <=? 15) with false by (symmetry; apply Z.leb_gt; lia).
        replace (pos <=? 18) with false by (symmetry; apply Z.leb_gt; lia).
        rewrite !andb_false_r. reflexivity.
    + assert (pos = 0 \/ pos = 1 \/ pos = 2 \/ pos = 3 \/ pos = 4 \/ pos = 5
              \/ pos = 6 \/ pos = 7 \/ pos = 8 \/ pos = 9 \/ pos = 10
              \/ pos = 11 \/ pos = 12 \/ pos = 13 \/ pos = 14 \/ pos = 15
              \/ pos = 16 \/ pos = 17 \/ pos = 18) as C by lia.
      repeat (destruct C as [-> | C];
              [vm_compute; split; intros E; first [reflexivity | discriminate E] |]).
      subst pos. vm_compute; split; intros E; discriminate E.
Qed.

(** X2. A position has a field name other than "Unknown" exactly when it
    is editable: the separators 4, 7, 10, 13, 16 and every position outside
    [0,18] are "Unknown", and every editable position lies in one of the
    six fields. *)
Theorem field_name_known_iff_editable (pos : Z) :
  (getCurrentFieldName pos <> str "Unknown" <-> isEditablePosition pos = true)
  /\ (isEditablePosition pos = true ->
      In (getCurrentFieldName pos)
         [str "Year"; str "Month"; str "Day"; str "Hour"; str "Minute";
          str "Second"]).
Proof.
  split.
  - pose proof (getCurrentFieldName_Unknown pos) as U.
    destruct (isEditablePosition pos); split; intros H; try reflexivity.
    + intros E. apply U in E. discriminate E.
    + exfalso. apply H. apply U. reflexivity.
    + discriminate H.
  - intros H. apply isEditablePosition_cases in H. cbn [In] in H.
    repeat (destruct H as [<- | H]; [vm_compute; tauto|]). contradiction.
Qed.

(** ** [adjustField] on every field *)

Lemma adjustField_Year t pos delta :
  getCurrentFieldName pos = str "Year" ->
  adjustField t pos delta = set_tm_year t (tm_year t + delta).
Proof. intros H. unfold adjustField. rewrite H. reflexivity. Qed.

Lemma adjustField_Month t pos delta :
  getCurrentFieldName pos = str "Month" ->
  adjustField t pos delta
  = let mon := tm_mon t + delta in
    let mon := if mon >? 11 then 0 else if mon <? 0 then 11 else mon in
    let t1 := set_tm_mon t mon in
    let max_day := getMaxDay (tm_mon t1 + 1) (tm_year t1 + 1900) in
    if tm_mday t1 >? max_day then set_tm_mday t1 max_day else t1.
Proof. intros H. unfold adjustField. rewrite H. reflexivity. Qed.

Lemma adjustField_Day t pos delta :
  getCurrentFieldName pos = str "Day" ->
  adjustField t pos delta
  = let max_day := getMaxDay (tm_mon t + 1) (tm_year t + 1900) in
    let day := tm_mday t + delta in
    set_tm_mday t
      (if day >? max_day then 1 else if day <? 1 then max_day else day).
Proof. intros H. unfold adjustField. rewrite H. reflexivity. Qed.

Lemma adjustField_Hour t pos delta :
  getCurrentFieldName pos = str "Hour" ->
  adjustField t pos delta
  = let h := tm_hour t + delta in
    set_tm_hour t (if h >? 23 then 0 else if h <? 0 then 23 else h).
Proof. intros H. unfold adjustField. rewrite H. reflexivity. Qed.

Lemma adjustField_Minute t pos delta :
  getCurrentFieldName pos = str "Minute" ->
  adjustField t pos delta
  = let m := tm_min t + delta in
    set_tm_min t (if m >? 59 then 0 else if m <? 0 then 59 else m).
Proof. intros H. unfold adjustField. rewrite H. reflexivity. Qed.

Lemma adjustField_Second t pos delta :
  getCurrentFieldName pos = str "Second" ->
  adjustField t pos delta
  = let s := tm_sec t + delta in
    set_tm_sec t (if s >? 59 then 0 else if s <? 0 then 59 else s).
Proof. intros H. unfold adjustField. rewrite H. reflexivity. Qed.

Lemma field_of_editable pos :
  isEditablePosition pos = true ->
  getCurrentFieldName pos = str "Year" \/ getCurrentFieldName pos = str "Month"
  \/ getCurrentFieldName pos = str "Day" \/ getCurrentFieldName pos = str "Hour"
  \/ getCurrentFieldName pos = str "Minute"
  \/ getCurrentFieldName pos = str "Second".
Proof.
  intros H. apply isEditablePosition_cases in H. cbn [In] in H.
  repeat (destruct H as [<- | H]; [vm_compute; tauto|]). contradiction.
Qed.

Lemma editor_valid_iff t :
  editor_valid t = true <->
  0 <= tm_mon t <= 11
  /\ 1 <= tm_mday t <= getMaxDay (tm_mon t + 1) (tm_year t + 1900)
  /\ 0 <= tm_hour t <= 23 /\ 0 <= tm_min t <= 59 /\ 0 <= tm_sec t <= 59.
Proof.
  unfold editor_valid. rewrite !andb_true_iff, !Z.leb_le. tauto.
Qed.

Lemma adjustField_not_editable t pos delta :
  isEditablePosition pos = false -> adjustField t pos delta = t.
Proof.
  intros H. apply getCurrentFieldName_Unknown in H.
  unfold adjustField. rewrite H. reflexivity.
Qed.

(** X3. On a position that is not editable (a separator, or outside the
    text) [adjustField] changes nothing, whatever the step. *)
Theorem adjustField_off_field (t : tm) (pos delta : Z) :
  isEditablePosition pos = false -> adjustField t pos delta = t.
Proof. exact (adjustField_not_editable t pos delta). Qed.

Lemma adjustField_off_field_witness :
  isEditablePosition 10 = false
  /\ adjustField noon 10 1 = noon.
Proof.
  split; [reflexivity|]. apply (adjustField_off_field noon 10 1). reflexivity.
Defined.

(** X4. [adjustField] never leaves the editable range: from a time whose
    month, day, hour, minute and second are in range (the day within the
    month), any change at any position gives such a time again. *)
Theorem adjustField_keeps_valid (t : tm) (pos delta : Z) :
  editor_valid t = true -> editor_valid (adjustField t pos delta) = true.
Proof.
  intros V. destruct (isEditablePosition pos) eqn:E.
  2:{ rewrite adjustField_not_editable by exact E. exact V. }
  apply editor_valid_iff in V. destruct V as [Vm [Vd [Vh [Vi Vs]]]].
  apply editor_valid_iff.
  destruct (field_of_editable pos E) as [F | [F | [F | [F | [F | F]]]]].
  - rewrite (adjustField_Year _ _ _ F).
    cbn [tm_mon tm_year tm_mday tm_hour tm_min tm_sec set_tm_year].
    replace (getMaxDay (tm_mon t + 1) (tm_year t + delta + 1900))
      with (getMaxDay (tm_mon t + 1) (tm_year t + 1900)) by reflexivity.
    repeat split; lia.
  - rewrite (adjustField_Month _ _ _ F). cbv zeta.
    set (sum := tm_mon t + delta).
    set (mon := if sum >? 11 then 0 else if sum <? 0 then 11 else sum).
    assert (Hmon : 0 <= mon <= 11).
    { unfold mon. destruct (sum >? 11) eqn:E1; [lia|].
      destruct (sum <? 0) eqn:E2; lia. }
    cbn [tm_mon tm_year tm_mday set_tm_mon].
    pose proof (getMaxDay_range (mon + 1) (tm_year t + 1900)) as R.
    destruct (tm_mday t >? getMaxDay (mon + 1) (tm_year t + 1900)) eqn:E1;
      cbn [tm_mon tm_year tm_mday tm_hour tm_min tm_sec set_tm_mon set_tm_mday];
      repeat split; lia.
  - rewrite (adjustField_Day _ _ _ F). cbv zeta.
    pose proof (getMaxDay_range (tm_mon t + 1) (tm_year t + 1900)) as R.
    cbn [tm_mon tm_year tm_mday tm_hour tm_min tm_sec set_tm_mday].
    destruct (tm_mday t + delta >? getMaxDay (tm_mon t + 1) (tm_year t + 1900)) eqn:E1;
      [|destruct (tm_mday t + delta <? 1) eqn:E2]; repeat split; lia.
  - rewrite (adjustField_Hour _ _ _ F). cbv zeta.
    cbn [tm_mon tm_year tm_mday tm_hour tm_min tm_sec set_tm_hour].
    destruct (tm_hour t + delta >? 23) eqn:E1;
      [|destruct (tm_hour t + delta <? 0) eqn:E2]; repeat split; lia.
  - rewrite (adjustField_Minute _ _ _ F). cbv zeta.
    cbn [tm_mon tm_year tm_mday tm_hour tm_min tm_sec set_tm_min].
    destruct (tm_min t + delta >? 59) eqn:E1;
      [|destruct (tm_min t + delta <? 0) eqn:E2]; repeat split; lia.
  - rewrite (adjustField_Second _ _ _ F). cbv zeta.
    cbn [tm_mon tm_year tm_mday tm_hour tm_min tm_sec set_tm_sec].
    destruct (tm_sec t + delta >? 59) eqn:E1;
      [|destruct (tm_sec t + delta <? 0) eqn:E2]; repeat split; lia.
Qed.

Lemma adjustField_keeps_valid_witness :
  editor_valid (mk_tm 59 59 23 31 11 125 0 0 0) = true
  /\ editor_valid (adjustField (mk_tm 59 59 23 31 11 125 0 0 0) 6 1) = true.
Proof.
  split; [reflexivity|].
  apply (adjustField_keeps_valid (mk_tm 59 59 23 31 11 125 0 0 0) 6 1).
  reflexivity.
Defined.

Lemma adjustField_Month_record s mi h d m y wd yd dst pos delta :
  getCurrentFieldName pos = str "Month" ->
  adjustField (mk_tm s mi h d m y wd yd dst) pos delta
  = let sum := m + delta in
    let mon := if sum >? 11 then 0 else if sum <? 0 then 11 else sum in
    let max_day := getMaxDay (mon + 1) (y + 1900) in
    mk_tm s mi h (if d >? max_day then max_day else d) mon y wd yd dst.
Proof.
  intros F. rewrite (adjustField_Month _ _ _ F). cbv zeta. tm_simpl.
  destruct (d >? _); reflexivity.
Qed.

(** X5. One step up followed by one step down at the same position gives
    back the time the editor held, except in the Month field, where the
    month comes back but the day stays at what the month in between
    allowed (31 January, up and down, is 28 January). *)
Theorem adjustField_up_then_down (t : tm) (pos : Z) :
  editor_valid t = true ->
  let t' := adjustField (adjustField t pos 1) pos (-1) in
  (getCurrentFieldName pos <> str "Month" -> t' = t)
  /\ (getCurrentFieldName pos = str "Month" ->
      let between := if tm_mon t =? 11 then 0 else tm_mon t + 1 in
      let max_day := getMaxDay (between + 1) (tm_year t + 1900) in
      t' = set_tm_mday t (if tm_mday t >? max_day then max_day else tm_mday t)).
Proof.
  intros V. cbv zeta.
  apply editor_valid_iff in V. destruct V as [Vm [Vd [Vh [Vi Vs]]]].
  destruct (isEditablePosition pos) eqn:E.
  2:{ rewrite !adjustField_not_editable by exact E.
      split; [reflexivity|]. intros F.
      apply getCurrentFieldName_Unknown in E. rewrite E in F. discriminate F. }
  destruct (field_of_editable pos E) as [F | [F | [F | [F | [F | F]]]]];
    (split; [intros N | intros M; rewrite F in M; try discriminate M]);
    try (exfalso; apply N; exact F).
  - rewrite !(adjustField_Year _ _ _ F). destruct t; tm_simpl. f_equal. lia.
  - clear M. destruct t as [s mi h d m y wd yd dst]. tm_simpl.
    rewrite (adjustField_Month_record _ _ _ _ _ _ _ _ _ _ _ F). cbv zeta.
    rewrite (adjustField_Month_record _ _ _ _ _ _ _ _ _ _ _ F). cbv zeta.
    assert (B : (if m + 1 >? 11 then 0 else if m + 1 <? 0 then 11 else m + 1)
                = (if m =? 11 then 0 else m + 1)).
    { rewrite Z.gtb_ltb.
      destruct (Z.ltb_spec 11 (m + 1)), (Z.eqb_spec m 11),
               (Z.ltb_spec (m + 1) 0); lia. }
    rewrite B. set (bt := if m =? 11 then 0 else m + 1).
    assert (B2 : (if bt + -1 >? 11 then 0
                  else if bt + -1 <? 0 then 11 else bt + -1) = m).
    { unfold bt. rewrite Z.gtb_ltb.
      destruct (Z.eqb_spec m 11); [subst; reflexivity|].
      destruct (Z.ltb_spec 11 (m + 1 + -1)), (Z.ltb_spec (m + 1 + -1) 0); lia. }
    rewrite B2.
    set (M1 := getMaxDay (bt + 1) (y + 1900)).
    set (d1 := if d >? M1 then M1 else d).
    assert (D : d1 <= d).
    { unfold d1. rewrite Z.gtb_ltb. destruct (Z.ltb_spec M1 d); lia. }
    replace (d1 >? getMaxDay (m + 1) (y + 1900)) with false
      by (symmetry; rewrite Z.gtb_ltb; apply Z.ltb_ge; lia).
    reflexivity.
  - rewrite !(adjustField_Day _ _ _ F). cbv zeta.
    destruct t as [s mi h d m y wd yd dst]. tm_simpl.
    pose proof (getMaxDay_range (m + 1) (y + 1900)) as R.
    destruct (d + 1 >? getMaxDay (m + 1) (y + 1900)) eqn:E1.
    + rewrite Z.gtb_ltb in E1. apply Z.ltb_lt in E1.
      replace (1 + -1 >? getMaxDay (m + 1) (y + 1900)) with false
        by (symmetry; rewrite Z.gtb_ltb; apply Z.ltb_ge; lia).
      change (1 + -1 <? 1) with true. cbv iota. f_equal. lia.
    + rewrite Z.gtb_ltb in E1. apply Z.ltb_ge in E1.
      replace (d + 1 <? 1) with false by (symmetry; apply Z.ltb_ge; lia).
      replace (d + 1 + -1) with d by lia.
      replace (d >? getMaxDay (m + 1) (y + 1900)) with false
        by (symmetry; rewrite Z.gtb_ltb; apply Z.ltb_ge; lia).
      replace (d <? 1) with false by (symmetry; apply Z.ltb_ge; lia).
      reflexivity.
  - rewrite !(adjustField_Hour _ _ _ F). cbv zeta.
    destruct t as [s mi h d m y wd yd dst]. tm_simpl.
    destruct (Z.eq_dec h 23) as [-> | Hh]; [reflexivity|].
    replace (h + 1 >? 23) with false
      by (symmetry; rewrite Z.gtb_ltb; apply Z.ltb_ge; lia).
    replace (h + 1 <? 0) with false by (symmetry; apply Z.ltb_ge; lia).
    replace (h + 1 + -1) with h by lia.
    replace (h >? 23) with false by (symmetry; rewrite Z.gtb_ltb; apply Z.ltb_ge; lia).
    replace (h <? 0) with false by (symmetry; apply Z.ltb_ge; lia).
    reflexivity.
  - rewrite !(adjustField_Minute _ _ _ F). cbv zeta.
    destruct t as [s mi h d m y wd yd dst]. tm_simpl.
    destruct (Z.eq_dec mi 59) as [-> | Hh]; [reflexivity|].
    replace (mi + 1 >? 59) with false
      by (symmetry; rewrite Z.gtb_ltb; apply Z.ltb_ge; lia).
    replace (mi + 1 <? 0) with false by (symmetry; apply Z.ltb_ge; lia).
    replace (mi + 1 + -1) with mi by lia.
    replace (mi >? 59) with false by (symmetry; rewrite Z.gtb_ltb; apply Z.ltb_ge; lia).
    replace (mi <? 0) with false by (symmetry; apply Z.ltb_ge; lia).
    reflexivity.
  - rewrite !(adjustField_Second _ _ _ F). cbv zeta.
    destruct t as [s mi h d m y wd yd dst]. tm_simpl.
    destruct (Z.eq_dec s 59) as [-> | Hh]; [reflexivity|].
    replace (s + 1 >? 59) with false
      by (symmetry; rewrite Z.gtb_ltb; apply Z.ltb_ge; lia).
    replace (s + 1 <? 0) with false by (symmetry; apply Z.ltb_ge; lia).
    replace (s + 1 + -1) with s by lia.
    replace (s >? 59) with false by (symmetry; rewrite Z.gtb_ltb; apply Z.ltb_ge; lia).
    replace (s <? 0) with false by (symmetry; apply Z.ltb_ge; lia).
    reflexivity.
Qed.

Lemma adjustField_up_then_down_witness :
  editor_valid (mk_tm 0 0 0 31 0 125 0 0 0) = true
  /\ adjustField (adjustField (mk_tm 0 0 0 31 0 125 0 0 0) 5 1) 5 (-1)
     = mk_tm 0 0 0 28 0 125 0 0 0.
Proof.
  split; [reflexivity|].
  apply (adjustField_up_then_down (mk_tm 0 0 0 31 0 125 0 0 0) 5); reflexivity.
Defined.

(** ** The interrupt handlers *)

(** X6. An interrupt handler does no input or output and never touches
    the text being edited: whatever the button and the mode, the edit
    buffer, the cursor, the EEPROM and the effects are as before; the
    cooldowns of the other buttons are as before; and an edge that arrives
    while the button is cooling down changes nothing at all. *)
Theorem handlers_only_set_flags (b : Button) (now_ms : Z) (g : Globals) :
  let g' := fall b now_ms g in
  editBuffer g' = editBuffer g
  /\ currentEditPos g' = currentEditPos g
  /\ i2c g' = i2c g
  /\ effects g' = effects g
  /\ (forall b', b' <> b -> debounce_of b' g' = debounce_of b' g)
  /\ (debouncing (debounce_of b g) = true -> g' = g).
Proof.
  cbv zeta. destruct g as [st inc nxt buf pos tsr dec [f1 t1] [f2 t2] [f3 t3] [f4 t4] dev eff].
  repeat split.
  - destruct b, st, f1, f2, f3, f4; reflexivity.
  - destruct b, st, f1, f2, f3, f4; reflexivity.
  - destruct b, st, f1, f2, f3, f4; reflexivity.
  - destruct b, st, f1, f2, f3, f4; reflexivity.
  - intros b' Hb. apply fall_debounce_other. exact Hb.
  - destruct b; cbn [debounce_of debounce_user_button debounce_replayButton
                     debounce_setTimeButton debounce_incrementButton debouncing];
      intros ->; reflexivity.
Qed.

Lemma handlers_only_set_flags_witness :
  let g := fall userButton 0 (startup blank_eeprom) in
  debouncing (debounce_of userButton g) = true
  /\ fall userButton 100 g = g.
Proof.
  cbv zeta. split; [reflexivity|].
  apply (handlers_only_set_flags userButton 100
           (fall userButton 0 (startup blank_eeprom))).
  reflexivity.
Defined.

(** X7. The replay button toggles the log view: a debounced press in IDLE
    gives DISPLAY_LOG, one in DISPLAY_LOG gives IDLE, so two presses bring
    the mode back; in LOG_TIME the press does nothing to the mode, and in
    SET_TIME it leaves the mode and asks for a decrement. *)
Theorem replay_button_toggles (t1 t2 : Z) (now : tm) (g : Globals) :
  let g1 := process (Press replayButton) t1 now g in
  let g2 := process (Press replayButton) t2 now g1 in
  state g1 = match state g with
             | IDLE => DISPLAY_LOG
             | DISPLAY_LOG => IDLE
             | m => m
             end
  /\ state g2 = state g
  /\ decrementPressed g1
     = (AppState_eqb (state g) SET_TIME || decrementPressed g)%bool
  /\ timeSetRequested g1 = timeSetRequested g
  /\ incrementPressed g1 = incrementPressed g
  /\ nextPositionPressed g1 = nextPositionPressed g.
Proof.
  cbv zeta. destruct g as [st inc nxt buf pos tsr dec d1 d2 d3 d4 dev eff].
  destruct st; eval_model; repeat split; reflexivity.
Qed.

(** ** What an iteration of the loop never does *)

Lemma read_logs_mem dev : mem (snd (read_logs dev)) = mem dev.
Proof.
  unfold read_logs.
  change (Z.to_nat TIME_STR_SIZE) with 20%nat.
  unfold LOG1_ADDR, LOG2_ADDR.
  destruct (ReadEEPROM_spec 0 20 dev ltac:(lia)) as [_ A2].
  destruct (ReadEEPROM EEPROM_ADDR 0 20 dev) as [log1 dev1].
  cbn [snd] in A2.
  destruct (ReadEEPROM_spec 32 20 dev1 ltac:(lia)) as [_ B2].
  destruct (ReadEEPROM EEPROM_ADDR 32 20 dev1) as [log2 dev2].
  cbn [snd] in B2. cbn [snd]. rewrite B2. exact A2.
Qed.

(** X8. An iteration of the loop writes the EEPROM and calls
    [storeCurrentTime] only when it starts in LOG_TIME, and calls
    [set_time] only when it commits (SET_TIME, the request to go on
    waiting, the cursor at 18): in every other case the cells of the EEPROM
    and the calls made so far are as before.  Showing the log reads the
    EEPROM without changing a cell. *)
Theorem loop_iteration_side_effects (now : tm) (g : Globals) :
  (state g <> LOG_TIME ->
   mem (i2c (loop_iteration now g)) = mem (i2c g)
   /\ storeCurrentTime_calls (effects (loop_iteration now g))
      = storeCurrentTime_calls (effects g))
  /\ (commits g = false ->
      set_time_calls (effects (loop_iteration now g))
      = set_time_calls (effects g)).
Proof.
  destruct g as [st inc nxt buf pos tsr dec d1 d2 d3 d4 dev eff].
  split.
  - cbn [state]. intros H.
    destruct st; try (exfalso; apply H; reflexivity);
      destruct inc, nxt, tsr, dec; eval_model;
      rewrite ?first_editable_0;
      try match goal with
          | |- context [?p =? 18] => destruct (p =? 18) eqn:?
          end; eval_model; split_parse;
      rewrite ?read_logs_mem; split; reflexivity.
  - unfold commits. cbn [state nextPositionPressed currentEditPos].
    intros H.
    destruct st, inc, nxt, tsr, dec; cbn [AppState_eqb andb] in H;
      eval_model; rewrite ?first_editable_0; rewrite ?H;
      change (0 =? 18) with false;
      try match goal with
          | |- context [?p =? 18] => destruct (p =? 18) eqn:?
          end; try discriminate H; eval_model; split_parse; reflexivity.
Qed.

Lemma loop_iteration_side_effects_witness :
  let g := process (Press replayButton) 0 noon (startup blank_eeprom) in
  state g <> LOG_TIME
  /\ mem (i2c (loop_iteration noon g)) = mem (i2c g).
Proof.
  cbv zeta. split; [discriminate|].
  apply (loop_iteration_side_effects noon
           (process (Press replayButton) 0 noon (startup blank_eeprom))).
  discriminate.
Defined.

(** ** Invariants of the runs *)

Lemma fall_while_debouncing b now_ms g :
  debouncing (debounce_of b g) = true -> fall b now_ms g = g.
Proof.
  destruct g as [st inc nxt buf pos tsr dec [f1 t1] [f2 t2] [f3 t3] [f4 t4] dev eff].
  destruct b; cbn [debounce_of debounce_user_button debounce_replayButton
                   debounce_setTimeButton debounce_incrementButton debouncing];
    intros ->; reflexivity.
Qed.

(** X10. In every reachable state each button's cooldown is consistent:
    the debouncing flag is set exactly when a timeout is armed that will
    clear it, so no button can stay locked out. *)
Theorem cooldown_always_consistent (g : Globals) (b : Button) :
  reachable g -> cooldown_consistent (debounce_of b g).
Proof.
  unfold cooldown_consistent.
  induction 1 as [dev | e g R IH].
  - left. destruct b; reflexivity.
  - destruct e as [b' now_ms | b' | now]; cbn [step].
    + destruct (Button_eqb b b') eqn:E.
      * apply Button_eqb_eq in E. subst b'.
        destruct (debouncing (debounce_of b g)) eqn:D.
        -- rewrite (fall_while_debouncing b now_ms g D). exact IH.
        -- right. eexists. apply fall_debounce_armed. exact D.
      * rewrite fall_debounce_other; [exact IH|].
        intros ->. assert (Button_eqb b' b' = true) by (apply Button_eqb_eq; reflexivity).
        congruence.
    + destruct b, b'; cbn; first [left; reflexivity | exact IH].
    + rewrite loop_iteration_debounce. exact IH.
Qed.

Lemma cooldown_always_consistent_witness :
  let g := run [Fall replayButton 0; Poll noon] (startup blank_eeprom) in
  reachable g
  /\ debounce_of replayButton g = mk_debounce true (Some 200)
  /\ cooldown_consistent (debounce_of replayButton g).
Proof.
  cbv zeta.
  assert (R : reachable (run [Fall replayButton 0; Poll noon]
                             (startup blank_eeprom)))
    by (apply reachable_run, reachable_startup).
  split; [exact R|]. split; [reflexivity|].
  apply (cooldown_always_consistent _ replayButton R).
Defined.

(** ** Debouncing over a whole run *)

Lemma gaps_cons_far d a t ts :
  d <= t - a -> Forall (fun x => t <= x) ts -> gaps_at_least d ts ->
  gaps_at_least d (a :: ts).
Proof.
  intros Hd F G. cbn [gaps_at_least]. split; [|exact G].
  destruct ts as [|x r]; [exact I|].
  inversion F; subst. lia.
Qed.

Lemma is_due_armed tf t a :
  is_due tf t (mk_debounce true (Some (a + DEBOUNCE_TIME_MS))) = true ->
  DEBOUNCE_TIME_MS <= t - a.
Proof.
  unfold is_due. cbn [due]. destruct tf; intros H.
  - apply Z.leb_le in H. lia.
  - apply Z.ltb_lt in H. lia.
Qed.

Lemma press_spacing_aux tf b es : forall g tl,
  in_order tl es = true ->
  Forall (fun x => tl <= x) (press_times tf b es g)
  /\ (debounce_of b g = mk_debounce false None ->
      gaps_at_least DEBOUNCE_TIME_MS (press_times tf b es g))
  /\ (forall a,
        debounce_of b g = mk_debounce true (Some (a + DEBOUNCE_TIME_MS)) ->
        gaps_at_least DEBOUNCE_TIME_MS (a :: press_times tf b es g)).
Proof.
  induction es as [|[t h] r IH]; intros g tl Ho.
  - cbn. repeat split; auto.
  - cbn [in_order fst] in Ho. apply andb_true_iff in Ho.
    destruct Ho as [Ht Ho]. apply Z.leb_le in Ht.
    set (g' := timed_step tf (t, h) g).
    destruct (IH g' t Ho) as [IF [II IA]].
    assert (IF' : Forall (fun x => tl <= x) (press_times tf b r g')).
    { eapply Forall_impl; [|exact IF]. cbn. intros x Hx. lia. }
    pose proof (fire_due_debounce tf t b g) as D1.
    cbn [press_times fst].
    destruct (logical_press tf b (t, h) g) eqn:L.
    + (* the edge is taken *)
      unfold logical_press in L. cbn [fst snd] in L.
      destruct h as [b' | now]; [|discriminate L].
      apply andb_true_iff in L. destruct L as [Lb Ld].
      apply Button_eqb_eq in Lb. subst b'.
      apply negb_true_iff in Ld.
      assert (A : debounce_of b g'
                  = mk_debounce true (Some (t + DEBOUNCE_TIME_MS))).
      { unfold g', timed_step. cbn [fst snd].
        apply fall_debounce_armed. exact Ld. }
      cbn [app]. split; [constructor; [exact Ht | exact IF']|].
      split; [intros _; apply IA; exact A|].
      intros a Ha. cbn [gaps_at_least]. split; [|apply (IA t A)].
      rewrite D1, Ha in Ld.
      destruct (is_due tf t (mk_debounce true (Some (a + DEBOUNCE_TIME_MS))))
        eqn:Du; [|discriminate Ld].
      apply is_due_armed in Du. exact Du.
    + (* nothing is taken for [b] *)
      cbn [app]. split; [exact IF'|].
      assert (S1 : debounce_of b g' = debounce_of b (fire_due tf t g)).
      { unfold g', timed_step. cbn [fst snd].
        unfold logical_press in L. cbn [fst snd] in L.
        destruct h as [b' | now]; [|apply loop_iteration_debounce].
        destruct (Button_eqb b b') eqn:Eb.
        - apply Button_eqb_eq in Eb. subst b'. cbn [andb] in L.
          apply negb_false_iff in L.
          rewrite (fall_while_debouncing b t _ L). reflexivity.
        - apply fall_debounce_other. intros ->.
          assert (Button_eqb b' b' = true) by (apply Button_eqb_eq; reflexivity).
          congruence. }
      rewrite D1 in S1. split.
      * intros Hi. apply II. rewrite S1, Hi. reflexivity.
      * intros a Ha. rewrite Ha in S1.
        destruct (is_due tf t (mk_debounce true (Some (a + DEBOUNCE_TIME_MS))))
          eqn:Du.
        -- apply is_due_armed in Du.
           apply (gaps_cons_far _ a t); [exact Du | exact IF | apply II; exact S1].
        -- apply IA. exact S1.
Qed.

(** X11. In every timed run whose events happen in order, started in a
    state where the cooldown of a button is consistent, any two logical
    presses of that button that follow one another are at least 200 ms
    apart: chatter within the cooldown never gets through, whatever else
    happens. *)
Theorem logical_presses_are_spaced
        (timer_first : bool) (b : Button) (g : Globals) (t0 : Z)
        (es : list (Z * Happening)) :
  cooldown_consistent (debounce_of b g) ->
  in_order t0 es = true ->
  gaps_at_least DEBOUNCE_TIME_MS (press_times timer_first b es g).
Proof.
  intros C Ho.
  destruct (press_spacing_aux timer_first b es g t0 Ho) as [_ [I A]].
  destruct C as [C | [t C]]; [apply I; exact C|].
  assert (G : gaps_at_least DEBOUNCE_TIME_MS
                ((t - DEBOUNCE_TIME_MS) :: press_times timer_first b es g)).
  { apply A. rewrite C. f_equal. f_equal. lia. }
  cbn [gaps_at_least] in G. destruct G as [_ G]. exact G.
Qed.

Lemma logical_presses_are_spaced_witness :
  let es := [(0, Edge userButton); (30, Edge userButton); (60, Tick noon);
             (199, Edge userButton); (200, Edge userButton);
             (390, Edge userButton); (400, Edge userButton)] in
  cooldown_consistent (debounce_of userButton (startup blank_eeprom))
  /\ in_order 0 es = true
  /\ press_times true userButton es (startup blank_eeprom) = [0; 200; 400]
  /\ gaps_at_least DEBOUNCE_TIME_MS
       (press_times true userButton es (startup blank_eeprom)).
Proof.
  cbv zeta.
  assert (C : cooldown_consistent (debounce_of userButton (startup blank_eeprom)))
    by (left; reflexivity).
  split; [exact C|]. split; [reflexivity|]. split; [reflexivity|].
  apply (logical_presses_are_spaced true userButton (startup blank_eeprom) 0 _ C).
  reflexivity.
Defined.

(** ** The EEPROM transfers *)

Lemma WriteEEPROM_mem a data size dev :
  0 <= a < 65536 ->
  mem (WriteEEPROM EEPROM_ADDR a data size dev)
  = store_bytes (mem dev) a (firstn size data).
Proof.
  intros H. unfold WriteEEPROM, i2c_write. rewrite Z.eqb_refl.
  rewrite (ep_address_bytes a H). reflexivity.
Qed.

(** X12. What [WriteEEPROM] writes at an internal address below 65536,
    [ReadEEPROM] reads back from that address, and a write leaves every
    cell outside the written range as it was.  Only the low 16 bits of the
    internal address reach the device: two addresses that differ by a
    multiple of 65536 name the same cells. *)
Theorem eeprom_write_then_read (a : Z) (data : list ascii) (dev : I2C) :
  0 <= a < 65536 ->
  let dev' := WriteEEPROM EEPROM_ADDR a data (List.length data) dev in
  fst (ReadEEPROM EEPROM_ADDR a (List.length data) dev') = data
  /\ (forall x, x < a \/ a + Z.of_nat (List.length data) <= x ->
        mem dev' x = mem dev x)
  /\ (forall k size, 0 <= k ->
        WriteEEPROM EEPROM_ADDR (a + 65536 * k) data size dev
        = WriteEEPROM EEPROM_ADDR a data size dev).
Proof.
  intros H. cbv zeta. split; [|split].
  - destruct (ReadEEPROM_spec a (List.length data)
                (WriteEEPROM EEPROM_ADDR a data (List.length data) dev) H)
      as [R _].
    rewrite R, (WriteEEPROM_mem a data _ dev H), firstn_all.
    apply load_store_same.
  - intros x Hx. rewrite (WriteEEPROM_mem a data _ dev H), firstn_all.
    rewrite store_bytes_spec.
    destruct (Z.leb_spec a x); [|reflexivity].
    destruct (Z.ltb_spec x (a + Z.of_nat (List.length data)));
      [lia | reflexivity].
  - intros k size Hk. unfold WriteEEPROM.
    assert (E1 : Z.land (Z.shiftr (a + 65536 * k) 8) 255
                 = Z.land (Z.shiftr a 8) 255).
    { change 255 with (Z.ones 8).
      rewrite !Z.land_ones, !Z.shiftr_div_pow2 by lia.
      change (2 ^ 8) with 256.
      replace (a + 65536 * k) with (a + (256 * k) * 256) by lia.
      rewrite Z.div_add by lia.
      replace (a / 256 + 256 * k) with (a / 256 + k * 256) by lia.
      apply Z_mod_plus_full. }
    assert (E2 : Z.land (a + 65536 * k) 255 = Z.land a 255).
    { change 255 with (Z.ones 8). rewrite !Z.land_ones by lia.
      change (2 ^ 8) with 256.
      replace (a + 65536 * k) with (a + (256 * k) * 256) by lia.
      apply Z_mod_plus_full. }
    rewrite E1, E2. reflexivity.
Qed.

Lemma eeprom_write_then_read_witness :
  0 <= 32 < 65536
  /\ fst (ReadEEPROM EEPROM_ADDR 32 5
           (WriteEEPROM EEPROM_ADDR 32 (str "hello") 5 blank_eeprom))
     = str "hello".
Proof.
  split; [lia|].
  apply (eeprom_write_then_read 32 (str "hello") blank_eeprom). lia.
Defined.

Lemma to_buffer_length n s : List.length (to_buffer n s) = n.
Proof.
  unfold to_buffer. rewrite length_firstn, length_app, repeat_length. lia.
Qed.

(** X13. [storeCurrentTime] keeps to the two records: whatever the time
    and the contents, every cell of the EEPROM outside the 20 bytes at 0
    and the 20 bytes at 32 is as it was. *)
Theorem storeCurrentTime_footprint (now : tm) (dev : I2C) (x : Z) :
  ~ (0 <= x < 20) -> ~ (32 <= x < 52) ->
  mem (storeCurrentTime now dev) x = mem dev x.
Proof.
  intros H1 H2. unfold storeCurrentTime.
  change (Z.to_nat TIME_STR_SIZE) with 20%nat.
  change (Z.to_nat (TIME_STR_SIZE - 1)) with 19%nat.
  unfold LOG1_ADDR, LOG2_ADDR.
  destruct (ReadEEPROM_spec 0 20 dev ltac:(lia)) as [A1 A2].
  destruct (ReadEEPROM EEPROM_ADDR 0 20 dev) as [oldLog dev1].
  cbn [fst snd] in A1, A2. subst oldLog. cbv zeta.
  rewrite WriteEEPROM_mem by lia.
  rewrite store_bytes_spec.
  rewrite firstn_all2
    by (rewrite poke_length, to_buffer_length; lia).
  rewrite poke_length, to_buffer_length.
  replace ((0 <=? x) && (x <? 0 + Z.of_nat 20)) with false.
  2:{ symmetry. apply andb_false_iff.
      destruct (Z.leb_spec 0 x); [right; apply Z.ltb_ge; lia | left; reflexivity]. }
  destruct (negb (Ascii.eqb (nth 0 (poke 19 NUL (load_bytes (mem dev) 0 20)) NUL) NUL)).
  - rewrite WriteEEPROM_mem by lia. rewrite store_bytes_spec, A2.
    rewrite firstn_all2
      by (rewrite poke_length, load_bytes_length; lia).
    rewrite poke_length, load_bytes_length.
    replace ((32 <=? x) && (x <? 32 + Z.of_nat 20)) with false; [reflexivity|].
    symmetry. apply andb_false_iff.
    destruct (Z.leb_spec 32 x); [right; apply Z.ltb_ge; lia | left; reflexivity].
  - rewrite A2. reflexivity.
Qed.

Lemma storeCurrentTime_footprint_witness :
  ~ (0 <= 25 < 20) /\ ~ (32 <= 25 < 52)
  /\ mem (storeCurrentTime noon blank_eeprom) 25 = NUL.
Proof.
  split; [lia|]. split; [lia|].
  apply (storeCurrentTime_footprint noon blank_eeprom 25); lia.
Defined.

(** ** Showing the log *)

Lemma record_both_texts t1 t2 dev :
  tm_normal t1 = true -> tm_normal t2 = true ->
  format_log (fst (fst (read_logs (storeCurrentTime t2 (storeCurrentTime t1 dev)))))
  = strftime_timestamp t2
  /\ format_log (snd (fst (read_logs (storeCurrentTime t2 (storeCurrentTime t1 dev)))))
     = strftime_timestamp t1.
Proof.
  intros N1 N2.
  assert (R : readBoth (storeCurrentTime t2 (storeCurrentTime t1 dev))
              = (strftime_timestamp t2, strftime_timestamp t1)).
  { rewrite (storeCurrentTime_shifts t2 _ N2).
    rewrite (storeCurrentTime_shifts t1 dev N1). cbn [fst].
    pose proof (strftime_length t1 N1) as L.
    destruct (strftime_timestamp t1); [discriminate L | reflexivity]. }
  unfold readBoth in R. rewrite R. cbn [fst snd].
  destruct (tm_normal_in_width t1 N1) as [A1 [A2 [A3 [A4 [A5 A6]]]]].
  destruct (tm_normal_in_width t2 N2) as [B1 [B2 [B3 [B4 [B5 B6]]]]].
  unfold strftime_timestamp, format_tm.
  split; apply format_log_sprintf_timestamp; assumption.
Qed.

(** X14. What is logged is what is shown: when the EEPROM holds the
    records of two calls of [storeCurrentTime], at the times [t1] and then
    [t2], an iteration of the loop in DISPLAY_LOG shows the text of [t2] as
    the latest and the text of [t1] as the previous record, unchanged by
    the reformatting, stays in DISPLAY_LOG and leaves the cells of the
    EEPROM as they are. *)
Theorem display_shows_the_stored_records
        (now t1 t2 : tm) (dev : I2C) (g : Globals) :
  tm_normal t1 = true -> tm_normal t2 = true ->
  state g = DISPLAY_LOG ->
  i2c g = storeCurrentTime t2 (storeCurrentTime t1 dev) ->
  let g' := loop_iteration now g in
  effects g'
  = Ev_displayLogs (strftime_timestamp t2) (strftime_timestamp t1) :: effects g
  /\ state g' = DISPLAY_LOG
  /\ mem (i2c g') = mem (i2c g).
Proof.
  intros N1 N2 Hs Hi. cbv zeta.
  destruct (record_both_texts t1 t2 dev N1 N2) as [R1 R2].
  destruct g as [st inc nxt buf pos tsr dec d1 d2 d3 d4 dv eff].
  cbn [state i2c] in Hs, Hi. subst st dv.
  destruct tsr; eval_model; rewrite R1, R2, ?read_logs_mem;
    repeat split; reflexivity.
Qed.

Lemma display_shows_the_stored_records_witness :
  let g := set_state
             (set_i2c (startup blank_eeprom)
                (storeCurrentTime noon
                   (storeCurrentTime (mk_tm 0 0 0 1 0 125 0 0 0) blank_eeprom)))
             DISPLAY_LOG in
  tm_normal (mk_tm 0 0 0 1 0 125 0 0 0) = true /\ tm_normal noon = true
  /\ state g = DISPLAY_LOG
  /\ hd_error (effects (loop_iteration noon g))
     = Some (Ev_displayLogs (str "2025/06/15 12:30:00")
                            (str "2025/01/01 00:00:00")).
Proof.
  cbv zeta. split; [reflexivity|]. split; [reflexivity|].
  split; [reflexivity|].
  pose proof (display_shows_the_stored_records noon
                (mk_tm 0 0 0 1 0 125 0 0 0) noon blank_eeprom
                (set_state
                   (set_i2c (startup blank_eeprom)
                      (storeCurrentTime noon
                         (storeCurrentTime (mk_tm 0 0 0 1 0 125 0 0 0)
                            blank_eeprom)))
                   DISPLAY_LOG)
                eq_refl eq_refl eq_refl eq_refl) as [H _].
  rewrite H. reflexivity.
Defined.

(** ** The reformatting of [displayLogs] on any contents *)

(** X15. The reformatting that [displayLogs] and [updateSetTimeDisplay]
    apply never changes what a text says.  For a text of at most 19
    characters whose reformatted text fits the 20 bytes of the buffer: if
    it does not scan as six numbers it is shown as it is; if it scans, it
    is shown as a text that scans to the same six numbers; and reformatting
    the shown text again gives the same text. *)
Theorem format_log_keeps_the_numbers (s : cstring) :
  (List.length s <= 19)%nat ->
  (List.length (format_log s) <= 19)%nat ->
  (sscanf_timestamp None None s = None -> format_log s = s)
  /\ sscanf_timestamp None None (format_log s) = sscanf_timestamp None None s
  /\ format_log (format_log s) = format_log s.
Proof.
  intros L _.
  assert (F : firstn (Z.to_nat (TIME_STR_SIZE - 1)) s = s).
  { apply firstn_all2. change (Z.to_nat (TIME_STR_SIZE - 1)) with 19%nat. lia. }
  destruct (sscanf_timestamp None None s)
    as [[[[[[year mon] day] hour] min] sec]|] eqn:E.
  - assert (Hf : format_log s = sprintf_timestamp year mon day hour min sec)
      by (unfold format_log; rewrite E; reflexivity).
    rewrite Hf. split; [discriminate|].
    split; [apply sscanf_any_sprintf_timestamp|].
    unfold format_log. rewrite sscanf_any_sprintf_timestamp. reflexivity.
  - assert (Hf : format_log s = s)
      by (unfold format_log; rewrite E; exact F).
    rewrite !Hf. split; [reflexivity|]. split; [exact E | reflexivity].
Qed.

Lemma format_log_keeps_the_numbers_witness :
  (List.length (str "2025/6/5 7:08:9") <= 19)%nat
  /\ format_log (str "2025/6/5 7:08:9") = str "2025/06/05 07:08:09"
  /\ format_log (format_log (str "2025/6/5 7:08:9"))
     = format_log (str "2025/6/5 7:08:9").
Proof.
  split; [cbn; lia|]. split; [reflexivity|].
  apply (format_log_keeps_the_numbers (str "2025/6/5 7:08:9"));
    vm_compute; lia.
Defined.

(** ** [parseEditBufferToTm] at its edges *)

(** X16. A time that [parseEditBufferToTm] returns has a year of at most
    four characters and other fields of at most two, so its year lies in
    [-999, 9999] and month, day, hour, minute and second, as written, in
    [-9, 99]; the three fields the text does not carry are 0.  The ranges
    are not checked further: a month 13 or an hour 99 is accepted. *)
Theorem parseEditBufferToTm_bounds (s : cstring) (t : tm) :
  parseEditBufferToTm s = Some t ->
  -999 <= tm_year t + 1900 <= 9999
  /\ -9 <= tm_mon t + 1 <= 99 /\ -9 <= tm_mday t <= 99
  /\ -9 <= tm_hour t <= 99 /\ -9 <= tm_min t <= 99 /\ -9 <= tm_sec t <= 99
  /\ tm_wday t = 0 /\ tm_yday t = 0 /\ tm_isdst t = 0.
Proof.
  unfold parseEditBufferToTm. intros H.
  destruct (sscanf_timestamp (Some 4%nat) (Some 2%nat) s)
    as [[[[[[year mon] day] hour] min] sec]|] eqn:E; [|discriminate H].
  injection H as <-.
  destruct (sscanf_timestamp_range _ _ _ _ _ _ _ E)
    as [Hy [Hmo [Hd [Hh [Hmi Hs]]]]].
  unfold in_width in *.
  change (10 ^ Z.of_nat (4 - 1)) with 1000 in Hy.
  change (10 ^ Z.of_nat 4) with 10000 in Hy.
  change (10 ^ Z.of_nat (2 - 1)) with 10 in *.
  change (10 ^ Z.of_nat 2) with 100 in *.
  cbn [tm_year tm_mon tm_mday tm_hour tm_min tm_sec tm_wday tm_yday tm_isdst].
  repeat split; lia.
Qed.

Lemma parseEditBufferToTm_bounds_witness :
  parseEditBufferToTm (str "2025/13/01 99:00:00")
  = Some (mk_tm 0 0 99 1 12 125 0 0 0)
  /\ -9 <= tm_hour (mk_tm 0 0 99 1 12 125 0 0 0) <= 99.
Proof.
  split; [reflexivity|].
  apply (parseEditBufferToTm_bounds (str "2025/13/01 99:00:00")
           (mk_tm 0 0 99 1 12 125 0 0 0)).
  reflexivity.
Defined.

(* The fixed-width text followed by anything. *)
Lemma sscanf_sprintf_timestamp_then year mon day hour min sec junk :
  in_width 4 year -> in_width 2 mon -> in_width 2 day ->
  in_width 2 hour -> in_width 2 min -> in_width 2 sec ->
  sscanf_timestamp (Some 4%nat) (Some 2%nat)
    (sprintf_timestamp year mon day hour min sec ++ junk)
  = Some (year, mon, day, hour, min, sec).
Proof.
  unfold in_width. intros Hy Hmo Hd Hh Hmi Hs.
  unfold sscanf_timestamp, sprintf_timestamp.
  repeat (rewrite <- app_assoc; cbn [app]).
  rewrite scan_int_sprintf_0d by (auto; lia).
  cbn [bind scan_char]. change (Ascii.eqb "/" "/") with true. cbn [bind].
  rewrite scan_int_sprintf_0d by (auto; lia).
  cbn [bind scan_char]. change (Ascii.eqb "/" "/") with true. cbn [bind].
  rewrite scan_int_sprintf_0d by (auto; lia).
  cbn [bind skip_space]. change (isspace " ") with true. cbv iota.
  rewrite skip_space_sprintf_0d by (auto; lia).
  rewrite scan_int_sprintf_0d by (auto; lia).
  cbn [bind scan_char]. change (Ascii.eqb ":" ":") with true. cbn [bind].
  rewrite scan_int_sprintf_0d by (auto; lia).
  cbn [bind scan_char]. change (Ascii.eqb ":" ":") with true. cbn [bind].
  rewrite scan_int_sprintf_0d by (auto; lia).
  reflexivity.
Qed.

(** X17. [parseEditBufferToTm] reads a prefix: white space before the
    text is skipped, and whatever follows the fixed-width text of a time is
    not looked at, so the text of a parsed time followed by anything parses
    to that time again. *)
Theorem parseEditBufferToTm_reads_a_prefix (s junk : cstring) (t : tm) :
  parseEditBufferToTm s = Some t ->
  parseEditBufferToTm (format_tm t ++ junk) = Some t
  /\ (forall c, isspace c = true ->
        parseEditBufferToTm (c :: s) = parseEditBufferToTm s).
Proof.
  intros H. split.
  - unfold parseEditBufferToTm in H.
    destruct (sscanf_timestamp (Some 4%nat) (Some 2%nat) s)
      as [[[[[[year mon] day] hour] min] sec]|] eqn:E; [|discriminate H].
    injection H as <-.
    destruct (sscanf_timestamp_range _ _ _ _ _ _ _ E)
      as [Hy [Hmo [Hd [Hh [Hmi Hs]]]]].
    rewrite format_of_parsed. unfold parseEditBufferToTm.
    rewrite sscanf_sprintf_timestamp_then by assumption. reflexivity.
  - intros c Hc. unfold parseEditBufferToTm, sscanf_timestamp, scan_int.
    cbn [skip_space]. rewrite Hc. reflexivity.
Qed.

Lemma parseEditBufferToTm_reads_a_prefix_witness :
  parseEditBufferToTm (str "2025/06/15 12:30:00")
  = Some (mk_tm 0 30 12 15 5 125 0 0 0)
  /\ parseEditBufferToTm (str "2025/06/15 12:30:0099 and more")
     = Some (mk_tm 0 30 12 15 5 125 0 0 0).
Proof.
  split; [reflexivity|].
  apply (parseEditBufferToTm_reads_a_prefix (str "2025/06/15 12:30:00")
           (str "99 and more") (mk_tm 0 30 12 15 5 125 0 0 0)).
  reflexivity.
Defined.

(** ** Editing a field *)

Lemma tm_normal_iff t :
  tm_normal t = true <->
  1000 <= tm_year t + 1900 <= 9999 /\ 0 <= tm_mon t <= 11
  /\ 1 <= tm_mday t <= 31 /\ 0 <= tm_hour t <= 23
  /\ 0 <= tm_min t <= 59 /\ 0 <= tm_sec t <= 60.
Proof.
  unfold tm_normal. rewrite !andb_true_iff, !Z.leb_le. tauto.
Qed.

Lemma adjustField_keeps_normal t pos delta :
  tm_normal t = true ->
  1000 <= tm_year (adjustField t pos delta) + 1900 <= 9999 ->
  tm_normal (adjustField t pos delta) = true.
Proof.
  intros V Y. destruct (isEditablePosition pos) eqn:E.
  2:{ rewrite adjustField_not_editable by exact E. exact V. }
  apply tm_normal_iff in V. destruct V as [Vy [Vm [Vd [Vh [Vi Vs]]]]].
  apply tm_normal_iff. revert Y.
  destruct (field_of_editable pos E) as [F | [F | [F | [F | [F | F]]]]].
  - rewrite (adjustField_Year _ _ _ F). destruct t. tm_simpl. lia.
  - destruct t as [s mi h d m y wd yd dst]. tm_simpl.
    rewrite (adjustField_Month_record _ _ _ _ _ _ _ _ _ _ _ F). cbv zeta.
    tm_simpl.
    set (sum := m + delta).
    set (mon := if sum >? 11 then 0 else if sum <? 0 then 11 else sum).
    assert (Hmon : 0 <= mon <= 11).
    { unfold mon. destruct (sum >? 11) eqn:E1; [lia|].
      destruct (sum <? 0) eqn:E2; lia. }
    pose proof (getMaxDay_range (mon + 1) (y + 1900)) as R.
    destruct (d >? getMaxDay (mon + 1) (y + 1900)) eqn:E1; lia.
  - rewrite (adjustField_Day _ _ _ F). cbv zeta. destruct t. tm_simpl.
    match goal with
    | |- context [getMaxDay ?a ?b] => pose proof (getMaxDay_range a b) as R
    end.
    repeat match goal with
           | |- context [if ?c then _ else _] => destruct c eqn:?
           end; lia.
  - rewrite (adjustField_Hour _ _ _ F). cbv zeta. destruct t. tm_simpl.
    repeat match goal with
           | |- context [if ?c then _ else _] => destruct c eqn:?
           end; lia.
  - rewrite (adjustField_Minute _ _ _ F). cbv zeta. destruct t. tm_simpl.
    repeat match goal with
           | |- context [if ?c then _ else _] => destruct c eqn:?
           end; lia.
  - rewrite (adjustField_Second _ _ _ F). cbv zeta. destruct t. tm_simpl.
    repeat match goal with
           | |- context [if ?c then _ else _] => destruct c eqn:?
           end; lia.
Qed.

Lemma tm_normal_clock_fields t : tm_normal (clock_fields t) = tm_normal t.
Proof. reflexivity. Qed.

Lemma editor_press_step
        (up : bool) (now_ms : Z) (now t : tm) (g : Globals) :
  state g = SET_TIME -> no_request g = true ->
  tm_normal t = true -> editBuffer g = strftime_timestamp t ->
  let b := if up then incrementButton else replayButton in
  let delta := if up then 1 else -1 in
  let t' := adjustField (clock_fields t) (currentEditPos g) delta in
  let g' := loop_iteration now (process (Press b) now_ms now g) in
  state g' = SET_TIME
  /\ currentEditPos g' = currentEditPos g
  /\ set_time_calls (effects g') = set_time_calls (effects g)
  /\ no_request g' = true
  /\ (1000 <= tm_year t' + 1900 <= 9999 ->
      tm_normal t' = true
      /\ editBuffer g' = strftime_timestamp t'
      /\ parseEditBufferToTm (editBuffer g') = Some (clock_fields t')).
Proof.
  destruct g as [st inc nxt buf pos tsr dec d1 d2 d3 d4 dev eff].
  cbn [state editBuffer currentEditPos effects].
  intros -> R N ->. cbv zeta.
  destruct inc, nxt, tsr, dec; try discriminate R.
  pose proof (parse_strftime t N) as P.
  assert (K : forall delta,
             1000 <= tm_year (adjustField (clock_fields t) pos delta) + 1900 <= 9999 ->
             tm_normal (adjustField (clock_fields t) pos delta) = true).
  { intros delta. apply adjustField_keeps_normal.
    rewrite tm_normal_clock_fields. exact N. }
  destruct up; eval_model; rewrite P; eval_model;
    (do 4 (split; [reflexivity|]));
    intros Y; (split; [apply K; exact Y|]); (split; [reflexivity|]);
    rewrite (parse_strftime _ (K _ Y)); reflexivity.
Qed.

(** X18. In the editor, on the text of a time of the clock, a press of
    the increment button (or of the replay button, for a decrement) and
    the iteration that serves it leave the mode, the cursor and the system
    time as they are and nothing waiting.  When the year of the time with
    the field under the cursor one step up (or down) still has four digits,
    that time is again a time of the clock, the buffer is replaced by its
    text, and the text parses to it, so editing can go on. *)
Theorem editor_press_steps_the_field
        (up : bool) (now_ms : Z) (now t : tm) (g : Globals) :
  state g = SET_TIME -> no_request g = true ->
  tm_normal t = true -> editBuffer g = strftime_timestamp t ->
  let b := if up then incrementButton else replayButton in
  let delta := if up then 1 else -1 in
  let t' := adjustField (clock_fields t) (currentEditPos g) delta in
  let g' := loop_iteration now (process (Press b) now_ms now g) in
  state g' = SET_TIME
  /\ currentEditPos g' = currentEditPos g
  /\ set_time_calls (effects g') = set_time_calls (effects g)
  /\ no_request g' = true
  /\ (1000 <= tm_year t' + 1900 <= 9999 ->
      tm_normal t' = true
      /\ editBuffer g' = strftime_timestamp t'
      /\ parseEditBufferToTm (editBuffer g') = Some (clock_fields t')).
Proof. exact (editor_press_step up now_ms now t g). Qed.

Lemma editor_press_steps_the_field_witness :
  let g := press_setTime (0, noon) (startup blank_eeprom) in
  state g = SET_TIME /\ no_request g = true /\ tm_normal noon = true
  /\ editBuffer g = strftime_timestamp noon
  /\ editBuffer
       (loop_iteration noon (process (Press incrementButton) 10 noon g))
     = str "2026/06/15 12:30:00".
Proof.
  cbv zeta. split; [reflexivity|]. split; [reflexivity|].
  split; [reflexivity|]. split; [reflexivity|].
  pose proof (editor_press_steps_the_field true 10 noon noon
                (press_setTime (0, noon) (startup blank_eeprom))
                eq_refl eq_refl eq_refl eq_refl) as [_ [_ [_ [_ H]]]].
  cbv zeta in H.
  assert (Y : 1000 <= tm_year (adjustField (clock_fields noon) 0 1) + 1900
              <= 9999) by (vm_compute; split; discriminate).
  destruct (H Y) as [_ [B _]].
  rewrite B. reflexivity.
Defined.

(** ** Going round with the cursor *)

(** X19. From every position of the text, editable or not, a step of the
    cursor lands on an editable position; from an editable position 14
    steps go once round all the editable positions and come back, and no
    fewer do. *)
Theorem advanceCursor_goes_round (p : Z) :
  0 <= p <= 18 ->
  isEditablePosition (advanceCursor p) = true
  /\ (isEditablePosition p = true ->
      Nat.iter 14 advanceCursor p = p
      /\ forall k, (0 < k < 14)%nat -> Nat.iter k advanceCursor p <> p).
Proof.
  intros H.
  assert (p = 0 \/ p = 1 \/ p = 2 \/ p = 3 \/ p = 4 \/ p = 5 \/ p = 6
          \/ p = 7 \/ p = 8 \/ p = 9 \/ p = 10 \/ p = 11 \/ p = 12
          \/ p = 13 \/ p = 14 \/ p = 15 \/ p = 16 \/ p = 17 \/ p = 18)
    as C by lia.
  assert (T : forall q,
             forallb (fun k => negb (Nat.iter k advanceCursor q =? q))
                     (seq 1 13) = true ->
             forall k, (0 < k < 14)%nat -> Nat.iter k advanceCursor q <> q).
  { intros q Hq k Hk E.
    rewrite forallb_forall in Hq.
    specialize (Hq k ltac:(apply in_seq; lia)).
    rewrite E, Z.eqb_refl in Hq. discriminate Hq. }
  repeat (destruct C as [-> | C];
          [split; [vm_compute; reflexivity|];
           intros E;
           first [ discriminate E
                 | split; [vm_compute; reflexivity
                          | apply T; vm_compute; reflexivity] ] |]).
  subst p. split; [vm_compute; reflexivity|].
  intros E. split; [vm_compute; reflexivity | apply T; vm_compute; reflexivity].
Qed.

Lemma advanceCursor_goes_round_witness :
  0 <= 9 <= 18 /\ advanceCursor 9 = 11
  /\ isEditablePosition (advanceCursor 9) = true.
Proof.
  split; [lia|]. split; [reflexivity|].
  apply (advanceCursor_goes_round 9). lia.
Defined.

(** ** An edit from the first press to the commit *)

Lemma editor_press_editing_at (up : bool) now_ms now t calls i g :
  editing_at (strftime_timestamp t) calls i g -> tm_normal t = true ->
  1000 <= tm_year (adjustField (clock_fields t) (nth i editable_positions 0)
                               (if up then 1 else -1)) + 1900 <= 9999 ->
  editing_at
    (strftime_timestamp
       (adjustField (clock_fields t) (nth i editable_positions 0)
                    (if up then 1 else -1)))
    calls i
    (loop_iteration now
       (process (Press (if up then incrementButton else replayButton))
                now_ms now g)).
Proof.
  unfold editing_at. intros [Hs [Hr [Hp [Hb Hc]]]] N Y.
  pose proof (editor_press_step up now_ms now t g Hs Hr N Hb) as H.
  cbv zeta in H. destruct H as [A [B [D [E K]]]].
  rewrite <- Hp in Y |- *. destruct (K Y) as [_ [C _]].
  repeat split; try assumption; congruence.
Qed.

(** X20. The time that is committed is the time that was edited: from
    IDLE with nothing waiting, after the press that opens the editor, one
    press of the increment button (or of the replay button) on the year,
    13 presses that move the cursor to the end and one more that commits,
    the mode is IDLE and [set_time] has been called once, with the clock's
    time whose year is one more (or one less), as long as that year has
    four digits. *)
Theorem edit_the_year_then_commit
        (up : bool) (g : Globals) (c0 ci : Z * tm) (cs : list (Z * tm))
        (c14 : Z * tm) :
  state g = IDLE -> no_request g = true ->
  tm_normal (snd c0) = true -> List.length cs = 13%nat ->
  let delta := if up then 1 else -1 in
  let b := if up then incrementButton else replayButton in
  1000 <= tm_year (snd c0) + delta + 1900 <= 9999 ->
  let g1 := press_setTime c0 g in
  let g2 := loop_iteration (snd ci) (process (Press b) (fst ci) (snd ci) g1) in
  let g15 := press_setTime c14 (presses_setTime cs g2) in
  state g15 = IDLE
  /\ set_time_calls (effects g15)
     = set_tm_year (clock_fields (snd c0)) (tm_year (snd c0) + delta)
       :: set_time_calls (effects g).
Proof.
  intros Hs Hr N Hl. cbv zeta. intros Y.
  pose proof (press_setTime_enters c0 g Hs Hr) as E1.
  assert (A : adjustField (clock_fields (snd c0)) 0 (if up then 1 else -1)
              = set_tm_year (clock_fields (snd c0))
                  (tm_year (snd c0) + (if up then 1 else -1))).
  { exact (adjustField_Year (clock_fields (snd c0)) 0 _ eq_refl). }
  assert (Y' : 1000 <= tm_year (adjustField (clock_fields (snd c0))
                                  (nth 0 editable_positions 0)
                                  (if up then 1 else -1)) + 1900 <= 9999).
  { change (nth 0 editable_positions 0) with 0. rewrite A.
    unfold set_tm_year, clock_fields. cbn [tm_year]. exact Y. }
  pose proof (editor_press_editing_at up (fst ci) (snd ci) _ _ _ _ E1 N Y')
    as E2.
  change (nth 0 editable_positions 0) with 0 in E2.
  rewrite A in E2.
  pose proof (presses_setTime_advance _ _ cs 0 _ ltac:(lia) E2) as E14.
  rewrite Hl in E14. cbn [Nat.add] in E14.
  assert (N' : tm_normal (set_tm_year (clock_fields (snd c0))
                            (tm_year (snd c0) + (if up then 1 else -1)))
               = true).
  { apply tm_normal_iff in N. apply tm_normal_iff.
    unfold set_tm_year, clock_fields.
    cbn [tm_sec tm_min tm_hour tm_mday tm_mon tm_year]. lia. }
  apply (press_setTime_commits _ _ _ c14 _ E14 (parse_strftime _ N')).
Qed.

Lemma edit_the_year_then_commit_witness :
  let cs := map (fun k => (300 * Z.of_nat k, noon)) (seq 1 13) in
  state (startup blank_eeprom) = IDLE
  /\ no_request (startup blank_eeprom) = true
  /\ tm_normal noon = true /\ List.length cs = 13%nat
  /\ 1000 <= tm_year noon + 1 + 1900 <= 9999
  /\ hd_error
       (set_time_calls
          (effects
             (press_setTime (4200, noon)
                (presses_setTime cs
                   (loop_iteration noon
                      (process (Press incrementButton) 150 noon
                         (press_setTime (0, noon) (startup blank_eeprom))))))))
     = Some (mk_tm 0 30 12 15 5 126 0 0 0).
Proof.
  cbv zeta. split; [reflexivity|]. split; [reflexivity|].
  split; [reflexivity|]. split; [reflexivity|]. split; [cbn; lia|].
  pose proof (edit_the_year_then_commit true (startup blank_eeprom)
                (0, noon) (150, noon)
                (map (fun k => (300 * Z.of_nat k, noon)) (seq 1 13))
                (4200, noon) eq_refl eq_refl eq_refl eq_refl
                ltac:(cbn; lia)) as [_ H].
  cbv zeta in H. cbn [fst snd] in H. rewrite H. reflexivity.
Defined.

Lemma field_name_known_iff_editable_witness :
  isEditablePosition 12 = true
  /\ In (getCurrentFieldName 12)
        [str "Year"; str "Month"; str "Day"; str "Hour"; str "Minute";
         str "Second"].
Proof.
  split; [reflexivity|].
  apply (proj2 (field_name_known_iff_editable 12)). reflexivity.
Defined.
